(** * CosmoWeather API ([api/main.py]): TTL cache and weather orchestration

    A shallow embedding of [api/main.py] and the properties of its
    in-memory TTL cache, its location resolution and its forecast
    orchestration.

    Conventions of the embedding.
    - A Python [str] is a Rocq [string] holding its UTF-8 encoding.
    - A Python [float] is a [spec_float] (sign, mantissa, exponent, with
      zeros, infinities and NaN); a Python [int] is a [Z].
    - A decoded JSON document is a [json]; Python's [None] is [JNull].
    - The module-level [_cache] dictionary is a [gmap string CacheEntry]
      carried in the [World]; the handler is a program in a state and
      exception monad over the [World].
    - The wall clock and the two upstream services are oracles indexed by
      the number of suspension points (cache accesses, upstream calls)
      the process has gone through. *)

From Stdlib Require Import ZArith QArith Qround SpecFloat Ascii String.
From stdpp Require Import gmap strings pretty.

(** ** Python strings *)

Module PyStr.

Definition code (c : ascii) : N := N_of_ascii c.

(** The code points below 128 for which [str.isspace] holds. *)
Definition ascii_space (c : ascii) : bool :=
  let n := code c in
  ((9 <=? n) && (n <=? 13) || (28 <=? n) && (n <=? 32))%N.

(** The two-byte encodings of U+0085 and U+00A0. *)
Definition space2 (a b : ascii) : bool :=
  ((code a =? 194) && ((code b =? 133) || (code b =? 160)))%N.

(** The three-byte encodings of U+1680, U+2000..U+200A, U+2028, U+2029,
    U+202F, U+205F and U+3000. *)
Definition space3 (a b c : ascii) : bool :=
  let '(x, y, z) := (code a, code b, code c) in
  ((x =? 225) && (y =? 154) && (z =? 128)
   || (x =? 226) && (y =? 128)
      && ((128 <=? z) && (z <=? 138) || (z =? 168) || (z =? 169) || (z =? 175))
   || (x =? 226) && (y =? 129) && (z =? 159)
   || (x =? 227) && (y =? 128) && (z =? 128))%N.

(** Drops the whitespace characters at the front of [s]. With
    [back = true] the string is a reversed one, whose multi-byte
    characters come last byte first. *)
Fixpoint drop_space (back : bool) (s : string) : string :=
  match s with
  | EmptyString => EmptyString
  | String a r1 =>
      if ascii_space a then drop_space back r1 else
      match r1 with
      | EmptyString => s
      | String b r2 =>
          if (if back then space2 b a else space2 a b)
          then drop_space back r2 else
          match r2 with
          | EmptyString => s
          | String c r3 =>
              if (if back then space3 c b a else space3 a b c)
              then drop_space back r3 else s
          end
      end
  end.

Definition lstrip (s : string) : string := drop_space false s.
Definition rstrip (s : string) : string :=
  String.rev (drop_space true (String.rev s)).

(** [s.strip()] *)
Definition strip (s : string) : string := rstrip (lstrip s).

(** [s.split(sep)] for a one-character separator: never empty. *)
Fixpoint split (sep : ascii) (s : string) : list string :=
  match s with
  | EmptyString => [EmptyString]
  | String c r =>
      if Ascii.eqb c sep then EmptyString :: split sep r
      else match split sep r with
           | h :: t => String c h :: t
           | [] => [String c EmptyString]
           end
  end.

(** [sep.join(l)] *)
Fixpoint join (sep : string) (l : list string) : string :=
  match l with
  | [] => EmptyString
  | [x] => x
  | x :: r => x +:+ sep +:+ join sep r
  end.

(** Truth value of a string: non-empty. *)
Definition truthy (s : string) : bool :=
  match s with EmptyString => false | _ => true end.

(** [s[0]]: the first character, all the bytes of its encoding. *)
Definition head_char (s : string) : option string :=
  match s with
  | EmptyString => None
  | String a _ =>
      let n := if (code a <? 192)%N then 1 else if (code a <? 224)%N then 2
               else if (code a <? 240)%N then 3 else 4 in
      Some (String.substring 0 n s)
  end.

End PyStr.

(** ** Python floats *)

Module PyFloat.

Local Open Scope Z_scope.

Definition sign_str (s : bool) : string := if s then "-" else "".

Definition digit (n : Z) : ascii := ascii_of_N (48 + Z.to_N (n mod 10)).

(** The last [d] decimal digits of [n], zero padded. *)
Fixpoint fixed_digits (d : nat) (n : Z) : string :=
  match d with
  | O => EmptyString
  | S d' => fixed_digits d' (n / 10) +:+ String (digit n) EmptyString
  end.

(** [m * 2^e * 10^d] rounded to the nearest integer, ties to even. *)
Definition scaled_round (d : nat) (m : positive) (e : Z) : Z :=
  let n := Z.pos m * 10 ^ Z.of_nat d in
  if 0 <=? e then n * 2 ^ e
  else
    let den := 2 ^ (- e) in
    let q := n / den in
    let r := n mod den in
    match 2 * r ?= den with
    | Lt => q
    | Gt => q + 1
    | Eq => if Z.even q then q else q + 1
    end.

(** The digits of the scaled integer [n], the point before the last [d]. *)
Definition fixed_point (d : nat) (n : Z) : string :=
  pretty (n / 10 ^ Z.of_nat d)
  +:+ match d with O => "" | _ => "." +:+ fixed_digits d n end.

(** [format(x, ".df")], the [f"{x:.df}"] of the source. *)
Definition format_f (d : nat) (x : spec_float) : string :=
  match x with
  | S754_nan => "nan"
  | S754_infinity s => sign_str s +:+ "inf"
  | S754_zero s => sign_str s +:+ fixed_point d 0
  | S754_finite s m e => sign_str s +:+ fixed_point d (scaled_round d m e)
  end.

(** [float(n)] for an [int]: nearest binary64, [None] where Python
    raises [OverflowError]. *)
Definition of_int (n : Z) : option spec_float :=
  match binary_normalize 53 1024 n 0 false with
  | S754_infinity _ => None
  | f => Some f
  end.

(** The integer a float is equal to, if any (how a float key hashes and
    compares with the [int] keys of a dictionary). *)
Definition to_int_exact (x : spec_float) : option Z :=
  match x with
  | S754_zero _ => Some 0
  | S754_finite s m e =>
      let v := if 0 <=? e then Some (Z.pos m * 2 ^ e)
               else if Z.pos m mod 2 ^ (- e) =? 0
                    then Some (Z.pos m / 2 ^ (- e)) else None in
      (fun z => if s then - z else z) <$> v
  | _ => None
  end.

(** Truth value of a float: non-zero. *)
Definition truthy (x : spec_float) : bool :=
  match x with S754_zero _ => false | _ => true end.

End PyFloat.

(** ** JSON documents, exceptions *)

#[local] Set Warnings "-register-all".

Inductive json :=
  | JNull
  | JBool (b : bool)
  | JInt (n : Z)
  | JFloat (x : spec_float)
  | JStr (s : string)
  | JList (l : list json)
  | JObj (items : list (string * json)).

Inductive exn :=
  | HTTPException (status_code : Z) (detail : string)
  | HTTPError          (* any failure of the [httpx] call or of [raise_for_status] *)
  | AttributeError
  | TypeError
  | KeyError
  | IndexError
  | ValueError
  | OverflowError.

Inductive outcome (A : Type) :=
  | Ret (a : A)
  | Raise (e : exn).
Arguments Ret {A} a.
Arguments Raise {A} e.

(** The functions of the Python runtime that are tables or long
    algorithms of their own: Unicode lower-casing, the parser behind
    [float(str)] ([None] where it raises [ValueError]) and the shortest
    round-trip [repr] of a float. *)
Class PyRuntime := {
  str_lower : string -> string;
  float_of_str : string -> option spec_float;
  float_repr : spec_float -> string
}.

Module Py.

Definition is_none (v : json) : bool :=
  match v with JNull => true | _ => false end.

(** Truth value, as [if v] and [not v] and [v or w] test it. *)
Definition truthy (v : json) : bool :=
  match v with
  | JNull => false
  | JBool b => b
  | JInt n => negb (n =? 0)%Z
  | JFloat x => PyFloat.truthy x
  | JStr s => PyStr.truthy s
  | JList l => match l with [] => false | _ => true end
  | JObj items => match items with [] => false | _ => true end
  end.

Fixpoint lookup (items : list (string * json)) (k : string) : option json :=
  match items with
  | [] => None
  | (k', v) :: r => if String.eqb k' k then Some v else lookup r k
  end.

(** [d.get(k, default)]; only a [dict] has the method. *)
Definition get (d : json) (k : string) (default : json) : outcome json :=
  match d with
  | JObj items => Ret (match lookup items k with Some v => v | None => default end)
  | _ => Raise AttributeError
  end.

(** [v[0]] *)
Definition getitem0 (v : json) : outcome json :=
  match v with
  | JList (x :: _) => Ret x
  | JList [] => Raise IndexError
  | JStr s => match PyStr.head_char s with
              | Some c => Ret (JStr c)
              | None => Raise IndexError
              end
  | JObj _ => Raise KeyError
  | _ => Raise TypeError
  end.

(** [float(v)] *)
Definition float `{PyRuntime} (v : json) : outcome spec_float :=
  match v with
  | JFloat x => Ret x
  | JInt n => match PyFloat.of_int n with
              | Some x => Ret x
              | None => Raise OverflowError
              end
  | JBool b => Ret (binary_normalize 53 1024 (if b then 1 else 0) 0 false)
  | JStr s => match float_of_str s with
              | Some x => Ret x
              | None => Raise ValueError
              end
  | _ => Raise TypeError
  end.

(** [str(v)] for the values that are not containers. *)
Definition str `{PyRuntime} (v : json) : string :=
  match v with
  | JNull => "None"
  | JBool b => if b then "True" else "False"
  | JInt n => pretty n
  | JFloat x => float_repr x
  | JStr s => s
  | JList _ | JObj _ => ""
  end.

(** [int(t)] for the float [t] that [time.time()] returns: truncation. *)
Definition int (t : Q) : Z := Z.quot (Qnum t) (Z.pos (Qden t)).

End Py.

(** ** The process state and its environment *)

(** An entry of [_cache]: the dictionary [{"value": ..., "expires_at": ...}]. *)
Record CacheEntry := mkEntry {
  value : json;
  expires_at : Z
}.

(** What the handler does at a suspension point. *)
Inductive Event :=
  | CacheGet (key : string)
  | CacheSet (key : string)
  | HttpGet (url : string) (params : list (string * json)).

(** The module-level state: the shared [_cache], the number of suspension
    points passed so far and the log of what happened at each. *)
Record World := mkWorld {
  _cache : gmap string CacheEntry;
  tick : nat;
  trace : list Event
}.

(** The environment: what [time.time()] reads at a suspension point, and
    what [client.get(url, params=params, timeout=10.0)] followed by
    [raise_for_status()] and [json()] yields there ([None]: one of them
    raises). *)
Class Oracle := {
  time_time : nat -> Q;
  http_get : nat -> string -> list (string * json) -> option json
}.

(** Programs over the world that return or raise. A raise keeps the world
    as it is at that point: no write of [_cache] is rolled back. *)
Definition M (A : Type) : Type := World -> outcome A * World.

Definition ret {A} (a : A) : M A := fun w => (Ret a, w).
Definition raise {A} (e : exn) : M A := fun w => (Raise e, w).
Definition lift {A} (o : outcome A) : M A := fun w => (o, w).
Definition bind {A B} (m : M A) (k : A -> M B) : M B :=
  fun w => match m w with
           | (Ret a, w') => k a w'
           | (Raise e, w') => (Raise e, w')
           end.

Notation "x <- c1 ;; c2" := (bind c1 (fun x => c2))
  (at level 100, c1 at next level, right associativity).
Notation "c1 ;; c2" := (bind c1 (fun _ => c2))
  (at level 100, right associativity).

(** One suspension point: the event is logged and the tick advances. *)
Definition step (ev : Event) (c : gmap string CacheEntry) (w : World) : World :=
  {| _cache := c; tick := S (tick w); trace := trace w ++ [ev] |}.

Definition GEOCODE_URL : string := "https://geocoding-api.open-meteo.com/v1/search".
Definition FORECAST_URL : string := "https://api.open-meteo.com/v1/forecast".

Definition CACHE_TTL_SECONDS : Z := 300.

Section Cache.

Context {oracle : Oracle}.

(** [_now()] at the suspension point [n]. *)
Definition _now (n : nat) : Z := Py.int (time_time n).

Definition cache_get (key : string) : M json := fun w =>
  match _cache w !! key with
  | None => (Ret JNull, step (CacheGet key) (_cache w) w)
  | Some entry =>
      if (expires_at entry <? _now (tick w))%Z
      then (Ret JNull, step (CacheGet key) (delete key (_cache w)) w)
      else (Ret (value entry), step (CacheGet key) (_cache w) w)
  end.

Definition cache_set (key : string) (v : json) (ttl : Z) : M unit := fun w =>
  (Ret tt,
   step (CacheSet key)
     (<[key := {| value := v; expires_at := (_now (tick w) + ttl)%Z |}]> (_cache w)) w).

Definition fetch_json (url : string) (params : list (string * json)) : M json :=
  fun w =>
    (match http_get (tick w) url params with
     | Some body => Ret body
     | None => Raise HTTPError
     end,
     step (HttpGet url params) (_cache w) w).

End Cache.

(** ** The weather-code table *)

Record WeatherCodeEntry := mkCode {
  desc : string;
  icon : string
}.

(** The icons are the byte strings of the source file as it is stored. *)
Definition WEATHERCODE_MAP : gmap Z WeatherCodeEntry :=
  list_to_map [
    (0, {| desc := "Clear sky"; icon := "â˜€ï¸" |});
    (1, {| desc := "Mainly clear"; icon := "ðŸŒ¤ï¸" |});
    (2, {| desc := "Partly cloudy"; icon := "â›…" |});
    (3, {| desc := "Overcast"; icon := "â˜ï¸" |});
    (45, {| desc := "Fog"; icon := "ðŸŒ«ï¸" |});
    (48, {| desc := "Depositing rime fog"; icon := "ðŸŒ«ï¸" |});
    (51, {| desc := "Light drizzle"; icon := "ðŸŒ¦ï¸" |});
    (53, {| desc := "Moderate drizzle"; icon := "ðŸŒ¦ï¸" |});
    (55, {| desc := "Dense drizzle"; icon := "ðŸŒ§ï¸" |});
    (61, {| desc := "Slight rain"; icon := "ðŸŒ§ï¸" |});
    (63, {| desc := "Moderate rain"; icon := "ðŸŒ§ï¸" |});
    (65, {| desc := "Heavy rain"; icon := "â›ˆï¸" |});
    (71, {| desc := "Slight snow"; icon := "ðŸŒ¨ï¸" |});
    (73, {| desc := "Moderate snow"; icon := "ðŸŒ¨ï¸" |});
    (75, {| desc := "Heavy snow"; icon := "â„ï¸" |});
    (80, {| desc := "Rain showers"; icon := "ðŸŒ§ï¸" |});
    (95, {| desc := "Thunderstorm"; icon := "â›ˆï¸" |})
  ]%Z.

(** The icon of a code that is not in the table. *)
Definition FALLBACK_ICON : string := "ðŸŒˆ".

(** ** The weather endpoint *)

(** The [Location] model, as the dictionary the handler builds. [name] is
    whatever truthy value upstream gave, or the city text. *)
Record Location := mkLocation {
  name : json;
  latitude : spec_float;
  longitude : spec_float;
  country : json;
  admin1 : json
}.

Record WeatherResponse := mkResponse {
  location : Location;
  current : json;
  hourly : json;
  weather_desc : string;
  weather_icon : string
}.

(** The query parameters of [GET /api/weather]. The transport layer puts
    [DEFAULT_HOURLY_VARS] where the request has no [hourly_vars]. *)
Record Query := mkQuery {
  city : option string;
  lat : option spec_float;
  lon : option spec_float;
  hourly_vars : option string
}.

Definition DEFAULT_HOURLY_VARS : string :=
  "temperature_2m,relativehumidity_2m,windspeed_10m".

(** [x is None] for an optional parameter. *)
Definition absent {A} (x : option A) : bool :=
  match x with Some _ => false | None => true end.

(** [not city]: [None] or the empty string. *)
Definition no_city (city : option string) : bool :=
  match city with
  | Some c => negb (PyStr.truthy c)
  | None => true
  end.

(** [[v.strip() for v in (hourly_vars or "").split(",") if v.strip()]] *)
Definition hourly_list (hourly_vars : option string) : list string :=
  let text := match hourly_vars with
              | Some s => if PyStr.truthy s then s else ""
              | None => ""
              end in
  List.map PyStr.strip
    (List.filter (fun v => PyStr.truthy (PyStr.strip v)) (PyStr.split "," text)).

(** The forecast parameters, the [None] ones removed. *)
Definition forecast_params (loc : Location) (hourly_list : list string)
  : list (string * json) :=
  List.filter (fun kv => negb (Py.is_none (snd kv)))
    [("latitude", JFloat (latitude loc));
     ("longitude", JFloat (longitude loc));
     ("current_weather", JBool true);
     ("hourly", match hourly_list with
                | [] => JNull
                | _ => JStr (PyStr.join "," hourly_list)
                end);
     ("timezone", JStr "auto");
     ("forecast_days", JInt 1)].

(** [f"forecast:{latitude:.4f},{longitude:.4f}:{','.join(hourly_list)}"] *)
Definition forecast_key (loc : Location) (hourly_list : list string) : string :=
  "forecast:" +:+ PyFloat.format_f 4 (latitude loc) +:+ ","
  +:+ PyFloat.format_f 4 (longitude loc) +:+ ":" +:+ PyStr.join "," hourly_list.

(** [f"geocode:{city.lower()}"] *)
Definition geocode_key `{PyRuntime} (city : string) : string :=
  "geocode:" +:+ str_lower city.

(** [{"name": city, "count": 1, "language": "en", "format": "json"}] *)
Definition geocode_params (city : string) : list (string * json) :=
  [("name", JStr city); ("count", JInt 1);
   ("language", JStr "en"); ("format", JStr "json")].

(** [geocode.get("results", []) if geocode else []] *)
Definition geocode_results (geocode : json) : outcome json :=
  if Py.truthy geocode then Py.get geocode "results" (JList [])
  else Ret (JList []).

(** [WEATHERCODE_MAP.get(wc, None)]: a key is found by hash and equality,
    so [True], [1] and [1.0] are the same key; lists and dictionaries are
    unhashable. *)
Definition weathercode_entry (wc : json) : outcome (option WeatherCodeEntry) :=
  match wc with
  | JNull | JStr _ => Ret None
  | JBool b => Ret (WEATHERCODE_MAP !! (if b then 1 else 0)%Z)
  | JInt n => Ret (WEATHERCODE_MAP !! n)
  | JFloat x => Ret (PyFloat.to_int_exact x ≫= (WEATHERCODE_MAP !!.))
  | JList _ | JObj _ => Raise TypeError
  end.

Section Weather.

Context {runtime : PyRuntime} {oracle : Oracle}.

(** The block "Determine coordinates" of [get_weather]. *)
Definition resolve_location (q : Query) : M Location :=
  match lat q, lon q with
  | Some la, Some lo =>
      let text := PyFloat.format_f 3 la +:+ "," +:+ PyFloat.format_f 3 lo in
      ret {| name := JStr (match city q with
                           | Some c => if PyStr.truthy c then c else text
                           | None => text
                           end);
             latitude := la;
             longitude := lo;
             country := JNull;
             admin1 := JNull |}
  | _, _ =>
      city <- lift (match city q with
                    | Some c => Ret c
                    | None => Raise AttributeError
                    end) ;;
      let geokey := geocode_key city in
      cached_geo <- cache_get geokey ;;
      top <- (if negb (Py.is_none cached_geo) then ret cached_geo
              else
                geocode <- fetch_json GEOCODE_URL (geocode_params city) ;;
                results <- lift (geocode_results geocode) ;;
                if negb (Py.truthy results)
                then raise (HTTPException 404 ("City '" +:+ city +:+ "' not found"))
                else
                  top <- lift (Py.getitem0 results) ;;
                  cache_set geokey top CACHE_TTL_SECONDS ;;
                  ret top) ;;
      top_name <- lift (Py.get top "name" JNull) ;;
      let name := if Py.truthy top_name then top_name else JStr city in
      lat <- lift (Py.get top "latitude" JNull) ;;
      lon <- lift (Py.get top "longitude" JNull) ;;
      if Py.is_none lat || Py.is_none lon
      then raise (HTTPException 502 "Upstream geocoding did not return coordinates")
      else
        latitude <- lift (Py.float lat) ;;
        longitude <- lift (Py.float lon) ;;
        country <- lift (Py.get top "country" JNull) ;;
        admin1 <- lift (Py.get top "admin1" JNull) ;;
        ret {| name := name; latitude := latitude; longitude := longitude;
               country := country; admin1 := admin1 |}
  end.

(** The block "Forecast params" up to the cache write: the forecast
    document for a location, from the cache or from upstream. *)
Definition load_forecast (loc : Location) (hourly_list : list string) : M json :=
  let cache_key := forecast_key loc hourly_list in
  cached_forecast <- cache_get cache_key ;;
  if negb (Py.is_none cached_forecast) then ret cached_forecast
  else
    forecast <- fetch_json FORECAST_URL (forecast_params loc hourly_list) ;;
    cache_set cache_key forecast CACHE_TTL_SECONDS ;;
    ret forecast.

(** The block "Map weathercode to description + icon". *)
Definition annotate (current : json) : outcome (string * string) :=
  match Py.get current "weathercode" JNull with
  | Raise e => Raise e
  | Ret wc =>
      match weathercode_entry wc with
      | Raise e => Raise e
      | Ret wc_entry =>
          Ret (match wc_entry with
               | Some entry => desc entry
               | None => if negb (Py.is_none wc)
                         then "Weather code " +:+ Py.str wc else ""
               end,
               match wc_entry with
               | Some entry => icon entry
               | None => FALLBACK_ICON
               end)
      end
  end.

(** The rest of [get_weather] once the location is known. *)
Definition weather_at (loc : Location) (hourly_list : list string)
  : M WeatherResponse :=
  forecast <- load_forecast loc hourly_list ;;
  current <- lift (Py.get forecast "current_weather" JNull) ;;
  hourly <- lift (Py.get forecast "hourly" (JObj [])) ;;
  if Py.is_none current
  then raise (HTTPException 502 "No current weather returned by upstream API")
  else
    annotation <- lift (annotate current) ;;
    ret {| location := loc; current := current; hourly := hourly;
           weather_desc := fst annotation; weather_icon := snd annotation |}.

(** The handler: what it returns or raises. The check of the returned
    dictionary against the response model is the framework's. *)
Definition get_weather (q : Query) : M WeatherResponse :=
  if no_city (city q) && (absent (lat q) || absent (lon q))
  then raise (HTTPException 400 "Provide either city or lat and lon")
  else
    location <- resolve_location q ;;
    weather_at location (hourly_list (hourly_vars q)).

End Weather.

(** ** The autocomplete endpoint *)

(** The characters of a string, as a [for] loop over a [str] yields them:
    a byte 10xxxxxx continues the character before it. *)
Definition is_continuation (c : ascii) : bool :=
  ((128 <=? PyStr.code c) && (PyStr.code c <? 192))%N.

Fixpoint str_chars (s : string) : list string :=
  match s with
  | EmptyString => []
  | String a r =>
      match str_chars r with
      | String b h :: t =>
          if is_continuation b then String a (String b h) :: t
          else String a EmptyString :: String b h :: t
      | t => String a EmptyString :: t
      end
  end.

(** What [for r in v] iterates over: the elements of a list, the
    characters of a string, the keys of a dictionary; nothing else is
    iterable. *)
Definition py_iter (v : json) : outcome (list json) :=
  match v with
  | JList l => Ret l
  | JStr s => Ret (List.map JStr (str_chars s))
  | JObj items => Ret (List.map (fun kv => JStr (fst kv)) items)
  | _ => Raise TypeError
  end.

(** The dictionary the loop appends for a result [r]. *)
Definition simplified_entry (r : json) : outcome json :=
  match Py.get r "name" JNull with
  | Raise e => Raise e
  | Ret name =>
  match Py.get r "country" JNull with
  | Raise e => Raise e
  | Ret country =>
  match Py.get r "admin1" JNull with
  | Raise e => Raise e
  | Ret admin1 =>
  match Py.get r "latitude" JNull with
  | Raise e => Raise e
  | Ret latitude =>
  match Py.get r "longitude" JNull with
  | Raise e => Raise e
  | Ret longitude =>
      Ret (JObj [("name", name); ("country", country); ("admin1", admin1);
                 ("latitude", latitude); ("longitude", longitude)])
  end end end end end.

(** [for r in results: simplified.append({...})] *)
Fixpoint simplify_loop (results : list json) (simplified : list json)
  : outcome (list json) :=
  match results with
  | [] => Ret simplified
  | r :: rest =>
      match simplified_entry r with
      | Ret d => simplify_loop rest (simplified ++ [d])
      | Raise e => Raise e
      end
  end.

(** From the decoded reply to the list [simplified]. *)
Definition simplify_geocode (geocode : json) : outcome (list json) :=
  match geocode_results geocode with
  | Raise e => Raise e
  | Ret results =>
      match py_iter results with
      | Raise e => Raise e
      | Ret items => simplify_loop items []
      end
  end.

(** [f"autocomplete:{query.lower()}:{limit}"] *)
Definition autocomplete_key {runtime : PyRuntime} (query : string) (limit : Z)
  : string :=
  "autocomplete:" +:+ str_lower query +:+ ":" +:+ pretty limit.

(** [{"name": query, "count": limit, "language": "en", "format": "json"}] *)
Definition autocomplete_params (query : string) (limit : Z)
  : list (string * json) :=
  [("name", JStr query); ("count", JInt limit);
   ("language", JStr "en"); ("format", JStr "json")].

(** The value of [limit] when the request has none. *)
Definition DEFAULT_LIMIT : Z := 6.

Section Autocomplete.

Context {runtime : PyRuntime} {oracle : Oracle}.

(** The handler of [GET /api/autocomplete]. The framework rejects an
    empty [query] before the handler runs. *)
Definition autocomplete (query : string) (limit : Z) : M json :=
  let key := autocomplete_key query limit in
  cached <- cache_get key ;;
  if negb (Py.is_none cached) then ret cached
  else
    geocode <- fetch_json GEOCODE_URL (autocomplete_params query limit) ;;
    simplified <- lift (simplify_geocode geocode) ;;
    cache_set key (JList simplified) CACHE_TTL_SECONDS ;;
    ret (JList simplified).

End Autocomplete.

(** ** What the handlers leave of the cache *)

(** The keys of the weather endpoint and of the autocomplete endpoint. *)
Definition weather_key (k : string) : bool :=
  String.prefix "geocode:" k || String.prefix "forecast:" k.

Definition autocomplete_own_key (k : string) : bool :=
  String.prefix "autocomplete:" k.

(** What a handler with the keys [own] leaves of the world: the
    suspension points only add up; entries under other keys are as they
    were; an entry that was not there before expires [CACHE_TTL_SECONDS]
    after a clock reading of the call; the event log is extended. *)
Definition handler_frame {oracle : Oracle} (own : string -> bool) (w w' : World)
  : Prop :=
  tick w <= tick w'
  /\ (forall k, own k = false -> _cache w' !! k = _cache w !! k)
  /\ (forall k e,
        _cache w' !! k = Some e ->
        _cache w !! k = Some e
        \/ exists n, tick w <= n < tick w'
                     /\ expires_at e = (_now n + CACHE_TTL_SECONDS)%Z)
  /\ (exists t, trace w' = trace w ++ t).

(** The error responses of the weather endpoint. *)
Definition weather_error (q : Query) (e : exn) : Prop :=
  match e with
  | HTTPException c d =>
      (c = 400%Z /\ d = "Provide either city or lat and lon")
      \/ (c = 404%Z /\ exists city', city q = Some city'
                                   /\ d = "City '" +:+ city' +:+ "' not found")
      \/ (c = 502%Z /\ d = "Upstream geocoding did not return coordinates")
      \/ (c = 502%Z /\ d = "No current weather returned by upstream API")
  | _ => True
  end.

Definition is_list (v : json) : bool :=
  match v with JList _ => true | _ => false end.

(** Every live or stale entry under an autocomplete key holds a list. *)
Definition autocomplete_entries_are_lists (w : World) : Prop :=
  forall k e,
    autocomplete_own_key k = true -> _cache w !! k = Some e ->
    is_list (value e) = true.

(** The character [c] does not occur in the string. *)
Fixpoint lacks (c : ascii) (s : string) : bool :=
  match s with
  | EmptyString => true
  | String a r => negb (Ascii.eqb a c) && lacks c r
  end.

(** Whether [drop_space] has something to drop at the front of [s]. *)
Definition leading_space (back : bool) (s : string) : bool :=
  match s with
  | EmptyString => false
  | String a r1 =>
      PyStr.ascii_space a
      || match r1 with
         | EmptyString => false
         | String b r2 =>
             (if back then PyStr.space2 b a else PyStr.space2 a b)
             || match r2 with
                | EmptyString => false
                | String c _ =>
                    if back then PyStr.space3 c b a else PyStr.space3 a b c
                end
         end
  end.

(** Every exception a program raises satisfies [P]. *)
Definition raises_within {A} (P : exn -> Prop) (m : M A) : Prop :=
  forall w, match fst (m w) with Raise e => P e | Ret _ => True end.


(** ** Counting upstream calls, closed environments *)

Definition is_forecast_call (ev : Event) : bool :=
  match ev with
  | HttpGet url _ => String.eqb url FORECAST_URL
  | _ => false
  end.

Definition is_geocode_call (ev : Event) : bool :=
  match ev with
  | HttpGet url _ => String.eqb url GEOCODE_URL
  | _ => false
  end.

(** The number of upstream forecast calls in a log. *)
Definition forecast_calls (t : list Event) : nat :=
  length (List.filter is_forecast_call t).

Definition geocode_calls (t : list Event) : nat :=
  length (List.filter is_geocode_call t).

(** A sequence of cache operations, for statements about what happens
    between two reads. *)
Inductive CacheOp :=
  | OpGet (key : string)
  | OpSet (key : string) (v : json) (ttl : Z).

Definition writes (key : string) (op : CacheOp) : bool :=
  match op with
  | OpSet k _ _ => String.eqb k key
  | OpGet _ => false
  end.

Definition run_op `{Oracle} (op : CacheOp) (w : World) : World :=
  match op with
  | OpGet k => snd (cache_get k w)
  | OpSet k v ttl => snd (cache_set k v ttl w)
  end.

Definition run_ops `{Oracle} (ops : list CacheOp) (w : World) : World :=
  fold_left (fun w op => run_op op w) ops w.

(** One whitespace character, as the bytes of its encoding. *)
Definition space_char (ch : string) : bool :=
  match ch with
  | String a EmptyString => PyStr.ascii_space a
  | String a (String b EmptyString) => PyStr.space2 a b
  | String a (String b (String c EmptyString)) => PyStr.space3 a b c
  | _ => false
  end.

(** A run of whitespace characters. *)
Inductive whitespace : string -> Prop :=
  | whitespace_nil : whitespace ""
  | whitespace_cons ch s :
      space_char ch = true -> whitespace s -> whitespace (ch +:+ s).

(** The bytes a whitespace character may start with. *)
Definition lead_byte (a : ascii) : bool :=
  (PyStr.ascii_space a || (PyStr.code a =? 194)
   || (225 <=? PyStr.code a) && (PyStr.code a <=? 227))%N.

(** Trimming, as the specification words it: [v] is [piece] without the
    whitespace around it. *)
Definition trimmed_of (piece v : string) : Prop :=
  exists pre post,
    piece = pre +:+ v +:+ post
    /\ whitespace pre /\ whitespace post
    /\ (forall ch r, space_char ch = true -> v <> ch +:+ r)
    /\ (forall ch r, space_char ch = true -> v <> r +:+ ch).

(** The requested variables as the specification words them: the text is
    its pieces with commas between them, each entry is a piece trimmed,
    and the entries that became empty are dropped. *)
Definition parsed_from (text : string) (vars : list string) : Prop :=
  exists pieces trimmed,
    pieces <> []
    /\ PyStr.join "," pieces = text
    /\ (forall p, In p pieces -> lacks "," p = true)
    /\ Forall2 trimmed_of pieces trimmed
    /\ vars = List.filter (fun v => negb (String.eqb v "")) trimmed.

(** A request with blanks, a tab and a newline around the names, and
    with empty entries. *)
Definition spaced_request : string :=
  " temperature_2m ," +:+ String "009" "windspeed_10m"
  +:+ String "010" ",, ,wind gusts".

(** The annotation as the specification words it, on an integer code
    that may be missing. *)
Definition annotation_of_code (wc : option Z) : string * string :=
  match wc with
  | Some c =>
      match WEATHERCODE_MAP !! c with
      | Some entry => (desc entry, icon entry)
      | None => ("Weather code " +:+ pretty c, FALLBACK_ICON)
      end
  | None => ("", FALLBACK_ICON)
  end.

(** Environments for closed examples. The runtime lower-cases the ASCII
    letters; none of the examples converts between floats and text. *)
Definition ascii_lower (c : ascii) : ascii :=
  let n := PyStr.code c in
  if ((65 <=? n) && (n <=? 90))%N then ascii_of_N (n + 32) else c.

Fixpoint string_map (f : ascii -> ascii) (s : string) : string :=
  match s with
  | EmptyString => EmptyString
  | String c r => String (f c) (string_map f r)
  end.

Definition ascii_runtime : PyRuntime :=
  {| str_lower := string_map ascii_lower;
     float_of_str := fun _ => None;
     float_repr := fun _ => "" |}.

(** A clock that reads [t] seconds at suspension point [n], and upstream
    services that answer by suspension point and URL. *)
Definition scripted (clock : nat -> Q) (answer : nat -> string -> option json)
  : Oracle :=
  {| time_time := clock; http_get := fun n url _ => answer n url |}.

Definition empty_world : World :=
  {| _cache := ∅; tick := 0; trace := [] |}.

(** An outcome other than the 400 of the handler's first check. *)
Definition not_400 {A} (o : outcome A) : Prop :=
  match o with
  | Raise (HTTPException c _) => c <> 400%Z
  | _ => True
  end.

Definition never_400 {A} (m : M A) : Prop := forall w, not_400 (fst (m w)).

(** What a program leaves of the world, as a relation between the world
    before and the world after. *)
Definition keeps {A} (R : World -> World -> Prop) (m : M A) : Prop :=
  forall w, R w (snd (m w)).

(** What the resolver leaves of the world: it touches geocoding keys
    only, issues no forecast call, and the suspension points only add up. *)
Definition geocode_frame {runtime : PyRuntime} (w w' : World) : Prop :=
  (forall k, (forall c, k <> geocode_key c) -> _cache w' !! k = _cache w !! k)
  /\ forecast_calls (trace w') = forecast_calls (trace w)
  /\ tick w <= tick w'.

(** At most [n] geocoding calls between the two worlds. *)
Definition adds_geocode_calls (n : nat) (w w' : World) : Prop :=
  geocode_calls (trace w') <= geocode_calls (trace w) + n.

(** New York, 40.7128 and -74.006 as binary64 (mantissa, exponent). *)
Definition new_york_lat : spec_float := S754_finite false 5729817215912798 (-47).
Definition new_york_lon : spec_float := S754_finite true 5207709281612202 (-46).

Definition new_york : Location :=
  {| name := JStr "40.713,-74.006"; latitude := new_york_lat;
     longitude := new_york_lon; country := JNull; admin1 := JNull |}.

Definition by_coordinates : Query :=
  {| city := None; lat := Some new_york_lat; lon := Some new_york_lon;
     hourly_vars := Some DEFAULT_HOURLY_VARS |}.

Definition by_city (c : string) : Query :=
  {| city := Some c; lat := None; lon := None;
     hourly_vars := Some DEFAULT_HOURLY_VARS |}.

(** Upstream documents. *)
Definition overcast : json :=
  JObj [("current_weather", JObj [("weathercode", JInt 3); ("temperature", JInt 15)]);
        ("hourly", JObj [])].

Definition forecast_without_current : json := JObj [("hourly", JObj [])].

Definition candidates (l : list json) : json := JObj [("results", JList l)].

Definition atlantis : json :=
  JObj [("name", JStr "Atlantis"); ("latitude", JFloat new_york_lat);
        ("longitude", JFloat new_york_lon)].

Definition atlantis_without_coordinates : json := JObj [("name", JStr "Atlantis")].

(** A clock standing at second 1000 and upstream services that always
    answer with the same two documents. *)
Definition steady (geocode forecast : json) : Oracle :=
  scripted (fun _ => inject_Z 1000)
    (fun _ url => Some (if String.eqb url GEOCODE_URL then geocode else forecast)).

(** Upstream services whose first answers (up to suspension point 1)
    break the contract and whose later answers are sound. *)
Definition recovering : Oracle :=
  scripted (fun _ => inject_Z 1000)
    (fun n url =>
       Some (if String.eqb url GEOCODE_URL
             then candidates [if (n <=? 1)%nat then atlantis_without_coordinates
                              else atlantis]
             else if (n <=? 1)%nat then forecast_without_current else overcast)).

(** A world whose cache holds one entry that expired at second 900. *)
Definition stale_world : World :=
  {| _cache := {["k" := {| value := JInt 1; expires_at := 900 |}]};
     tick := 0; trace := [] |}.

(** An outcome of the operations on values: no [HTTPException]. *)
Definition python_outcome {A} (o : outcome A) : Prop :=
  match o with
  | Raise (HTTPException _ _) => False
  | _ => True
  end.

(** A world whose cache holds the candidate for Atlantis, live until
    second 1200. *)
Definition atlantis_cached : World :=
  {| _cache := {["geocode:atlantis" := {| value := atlantis; expires_at := 1200 |}]};
     tick := 0; trace := [] |}.

(** What [autocomplete] makes of the candidate for Atlantis. *)
Definition atlantis_simplified : json :=
  JObj [("name", JStr "Atlantis"); ("country", JNull); ("admin1", JNull);
        ("latitude", JFloat new_york_lat); ("longitude", JFloat new_york_lon)].

(** A world whose cache holds the completions of "Atl", live until second
    1200. *)
Definition atlantis_completed : World :=
  {| _cache := {["autocomplete:atl:6" :=
                   {| value := JList [atlantis_simplified]; expires_at := 1200 |}]};
     tick := 0; trace := [] |}.

(** Upstream services that cannot be reached, on the standing clock. *)
Definition unreachable : Oracle :=
  scripted (fun _ => inject_Z 1000) (fun _ _ => None).

(** * Properties *)

(** ** The TTL cache *)

Section CacheFacts.

Context {oracle : Oracle}.

Lemma cache_get_absent key w :
  _cache w !! key = None ->
  cache_get key w = (Ret JNull, step (CacheGet key) (_cache w) w).
Proof. intros E. unfold cache_get. now rewrite E. Qed.

Lemma cache_get_stale key w entry :
  _cache w !! key = Some entry ->
  (expires_at entry < _now (tick w))%Z ->
  cache_get key w = (Ret JNull, step (CacheGet key) (delete key (_cache w)) w).
Proof.
  intros E Hlt. unfold cache_get. rewrite E.
  now apply Z.ltb_lt in Hlt as ->.
Qed.

Lemma cache_get_fresh key w entry :
  _cache w !! key = Some entry ->
  (_now (tick w) <= expires_at entry)%Z ->
  cache_get key w = (Ret (value entry), step (CacheGet key) (_cache w) w).
Proof.
  intros E Hle. unfold cache_get. rewrite E.
  now apply Z.ltb_ge in Hle as ->.
Qed.

(** A read returns, and leaves the cache as it was or without the key. *)
Lemma cache_get_returns key w :
  exists c m,
    cache_get key w = (Ret c, step (CacheGet key) m w)
    /\ (m = _cache w \/ m = delete key (_cache w)).
Proof.
  unfold cache_get.
  destruct (_cache w !! key) as [e |]; [destruct (_ <? _)%Z |]; eauto.
Qed.

(** A read never creates an entry, a write only under its own key. *)
Lemma run_op_keeps_absent key op w :
  writes key op = false ->
  _cache w !! key = None ->
  _cache (run_op op w) !! key = None.
Proof.
  destruct op as [k | k v ttl]; simpl; intros Hw E.
  - unfold cache_get.
    destruct (_cache w !! k) as [e |]; [destruct (_ <? _)%Z |]; simpl; auto.
    destruct (decide (k = key)) as [-> | Hne].
    + apply lookup_delete_eq.
    + now rewrite lookup_delete_ne.
  - apply String.eqb_neq in Hw. now rewrite lookup_insert_ne.
Qed.

Lemma run_ops_keep_absent key ops : forall w,
  forallb (fun op => negb (writes key op)) ops = true ->
  _cache w !! key = None ->
  _cache (run_ops ops w) !! key = None.
Proof.
  induction ops as [| op ops IH]; simpl; intros w Hall E; [exact E |].
  apply andb_prop in Hall as [Hop Hall].
  apply IH; [exact Hall |].
  apply run_op_keeps_absent; [| exact E].
  now destruct (writes key op).
Qed.

(** [int(time.time())] is the whole second the clock is in. *)
Lemma now_truncates n :
  (0 <= time_time n)%Q ->
  (inject_Z (_now n) <= time_time n)%Q
  /\ (time_time n < inject_Z (_now n + 1))%Q.
Proof.
  intros Hpos. unfold _now, Py.int.
  assert (Hq : (Qnum (time_time n) ÷ Z.pos (Qden (time_time n)))%Z
               = Qfloor (time_time n)).
  { destruct (time_time n) as [a b]. simpl.
    apply Z.quot_div_nonneg; [| reflexivity].
    unfold Qle in Hpos. simpl in Hpos. lia. }
  rewrite Hq. split; [apply Qfloor_le | apply Qlt_floor].
Qed.

Lemma now_le_of_lt n (z : Z) :
  (0 <= time_time n)%Q ->
  (time_time n < inject_Z (z + 1))%Q ->
  (_now n <= z)%Z.
Proof.
  intros Hpos Hlt.
  destruct (now_truncates n Hpos) as [Hlo _].
  assert (Hz : (inject_Z (_now n) < inject_Z (z + 1))%Q)
    by (eapply Qle_lt_trans; eassumption).
  rewrite <- Zlt_Qlt in Hz. lia.
Qed.

(** C3. A [cache_get] after the entry's expiry time has passed returns
    [None] and deletes the entry; every later [cache_get] of the key,
    with any reads and any writes of other keys in between, returns
    [None] as well; and the read leaves the same result and the same
    world as a read with the entry already gone. *)
Theorem expired_entry_reads_as_absent key w entry :
  _cache w !! key = Some entry ->
  (expires_at entry < _now (tick w))%Z ->
  fst (cache_get key w) = Ret JNull
  /\ _cache (snd (cache_get key w)) = delete key (_cache w)
  /\ (forall ops,
        forallb (fun op => negb (writes key op)) ops = true ->
        fst (cache_get key (run_ops ops (snd (cache_get key w)))) = Ret JNull)
  /\ cache_get key w
     = cache_get key {| _cache := delete key (_cache w);
                        tick := tick w; trace := trace w |}.
Proof.
  intros E Hlt. rewrite (cache_get_stale _ _ _ E Hlt). simpl.
  repeat split.
  - intros ops Hall. rewrite cache_get_absent; [reflexivity |].
    apply run_ops_keep_absent; [exact Hall |]. apply lookup_delete_eq.
  - rewrite cache_get_absent by apply lookup_delete_eq. reflexivity.
Qed.

(** C10. Expiry is strict and counted in whole seconds: [_now] is the
    clock truncated to seconds; a read whose [_now] equals the expiry
    time returns the value and keeps the entry; a read evicts exactly
    when [_now] is greater than the expiry time; and an entry written
    with [ttl] at second [now] is still returned by any read made before
    the clock reaches [now + ttl + 1]. *)
Theorem expiry_is_strict_in_whole_seconds :
  (forall n, (0 <= time_time n)%Q ->
     (inject_Z (_now n) <= time_time n)%Q
     /\ (time_time n < inject_Z (_now n + 1))%Q)
  /\ (forall key w entry,
        _cache w !! key = Some entry ->
        _now (tick w) = expires_at entry ->
        cache_get key w = (Ret (value entry), step (CacheGet key) (_cache w) w))
  /\ (forall key w entry,
        _cache w !! key = Some entry ->
        (_cache (snd (cache_get key w)) !! key = None
         <-> (expires_at entry < _now (tick w))%Z))
  /\ (forall key v ttl w w2,
        _cache w2 !! key = _cache (snd (cache_set key v ttl w)) !! key ->
        (0 <= time_time (tick w2))%Q ->
        (time_time (tick w2) < inject_Z (_now (tick w) + ttl + 1))%Q ->
        cache_get key w2 = (Ret v, step (CacheGet key) (_cache w2) w2)).
Proof.
  split; [exact now_truncates |]. split; [| split].
  - intros key w entry E Hnow. apply cache_get_fresh; [exact E | lia].
  - intros key w entry E. split.
    + intros Hgone. destruct (Z.lt_ge_cases (expires_at entry) (_now (tick w)))
        as [Hlt | Hge]; [exact Hlt |].
      rewrite (cache_get_fresh _ _ _ E Hge) in Hgone. simpl in Hgone. congruence.
    + intros Hlt. rewrite (cache_get_stale _ _ _ E Hlt). simpl.
      apply lookup_delete_eq.
  - intros key v ttl w w2 E Hpos Hlt. simpl in E. rewrite lookup_insert_eq in E.
    rewrite (cache_get_fresh _ _ _ E); [reflexivity |]. simpl.
    now apply now_le_of_lt.
Qed.

End CacheFacts.

(** ** Reasoning about handler programs *)

Lemma bind_ret {A B} (m : M A) (k : A -> M B) w a w' :
  m w = (Ret a, w') -> bind m k w = k a w'.
Proof. intros E. unfold bind. now rewrite E. Qed.

Lemma bind_raise {A B} (m : M A) (k : A -> M B) w e w' :
  m w = (Raise e, w') -> bind m k w = (Raise e, w').
Proof. intros E. unfold bind. now rewrite E. Qed.

Lemma bind_lift_ret {A B} (o : outcome A) (k : A -> M B) w a :
  o = Ret a -> bind (lift o) k w = k a w.
Proof. intros ->. reflexivity. Qed.

Lemma never_400_bind {A B} (m : M A) (k : A -> M B) :
  never_400 m -> (forall a, never_400 (k a)) -> never_400 (bind m k).
Proof.
  intros Hm Hk w. unfold bind. specialize (Hm w).
  destruct (m w) as [[a | e] w']; simpl in *; [apply Hk | exact Hm].
Qed.

Lemma never_400_lift {A} (o : outcome A) : not_400 o -> never_400 (lift o).
Proof. intros Ho w. exact Ho. Qed.

(** The operations on values raise Python's own exceptions only. *)
Lemma get_not_400 d k v : not_400 (Py.get d k v).
Proof. now destruct d. Qed.

Lemma getitem0_not_400 v : not_400 (Py.getitem0 v).
Proof.
  destruct v as [| | | | s | [|] |]; simpl; auto.
  now destruct (PyStr.head_char s).
Qed.

Lemma float_not_400 `{PyRuntime} v : not_400 (Py.float v).
Proof.
  destruct v as [| b | n | x | s | |]; simpl; auto.
  - now destruct (PyFloat.of_int n).
  - now destruct (float_of_str s).
Qed.

Lemma geocode_results_not_400 g : not_400 (geocode_results g).
Proof.
  unfold geocode_results. destruct (Py.truthy g); [apply get_not_400 | exact I].
Qed.

Lemma annotate_not_400 `{PyRuntime} c : not_400 (annotate c).
Proof.
  unfold annotate. destruct c; simpl; auto.
  destruct (Py.lookup items "weathercode") as [[]|]; simpl; auto.
Qed.

Section HandlerFacts.

Context {runtime : PyRuntime} {oracle : Oracle}.

Lemma cache_get_never_400 k : never_400 (cache_get k).
Proof.
  intros w. unfold cache_get.
  destruct (_cache w !! k); [destruct (_ <? _)%Z |]; exact I.
Qed.

Lemma cache_set_never_400 k v ttl : never_400 (cache_set k v ttl).
Proof. intros w. exact I. Qed.

Lemma fetch_json_never_400 url params : never_400 (fetch_json url params).
Proof. intros w. unfold fetch_json. simpl. now destruct (http_get _ _ _). Qed.

Local Ltac never_400_step :=
  match goal with
  | |- never_400 (bind _ _) => apply never_400_bind; [| intros ?]
  | |- never_400 (ret _) => intros ?; exact I
  | |- never_400 (raise _) => intros ?; simpl; discriminate
  | |- never_400 (cache_get _) => apply cache_get_never_400
  | |- never_400 (cache_set _ _ _) => apply cache_set_never_400
  | |- never_400 (fetch_json _ _) => apply fetch_json_never_400
  | |- never_400 (lift (Py.get _ _ _)) => apply never_400_lift, get_not_400
  | |- never_400 (lift (Py.getitem0 _)) => apply never_400_lift, getitem0_not_400
  | |- never_400 (lift (Py.float _)) => apply never_400_lift, float_not_400
  | |- never_400 (lift (geocode_results _)) =>
      apply never_400_lift, geocode_results_not_400
  | |- never_400 (lift (annotate _)) => apply never_400_lift, annotate_not_400
  | |- never_400 (lift (match ?c with _ => _ end)) =>
      destruct c; apply never_400_lift; exact I
  | |- never_400 (if ?b then _ else _) => destruct b
  end.

Lemma resolve_location_never_400 q : never_400 (resolve_location q).
Proof.
  unfold resolve_location.
  destruct (lat q), (lon q); repeat never_400_step.
Qed.

Lemma weather_at_never_400 loc hl : never_400 (weather_at loc hl).
Proof. unfold weather_at, load_forecast. repeat never_400_step. Qed.

(** C4. [get_weather] raises the 400 [HTTPException] exactly when the
    city is absent or empty and the latitude or the longitude is
    missing; with a city, or with both coordinates, it never does. *)
Theorem invalid_request_iff q w :
  (exists detail, fst (get_weather q w) = Raise (HTTPException 400 detail))
  <-> ((city q = None \/ city q = Some "")
       /\ (lat q = None \/ lon q = None)).
Proof.
  unfold get_weather.
  assert (Hcity : no_city (city q) = true <-> city q = None \/ city q = Some "").
  { unfold no_city. destruct (city q) as [[| a r] |]; simpl; split;
      intros; auto; intuition congruence. }
  assert (Hpair : absent (lat q) || absent (lon q) = true
                  <-> lat q = None \/ lon q = None).
  { destruct (lat q), (lon q); simpl; split; intros; auto; intuition congruence. }
  destruct (no_city (city q) && (absent (lat q) || absent (lon q))) eqn:G.
  - apply andb_prop in G as [G1 G2]. split; [| eexists; reflexivity].
    intros _. split; [now apply Hcity | now apply Hpair].
  - split.
    + intros [detail E].
      assert (N : never_400 (location <- resolve_location q ;;
                             weather_at location (hourly_list (hourly_vars q)))).
      { apply never_400_bind;
          [apply resolve_location_never_400 | intros; apply weather_at_never_400]. }
      specialize (N w). rewrite E in N. now elim N.
    + intros [G1 G2]. apply Hcity in G1. apply Hpair in G2.
      rewrite G1, G2 in G. discriminate.
Qed.

End HandlerFacts.

(** ** Resolution from coordinates, annotation, requested variables *)

Section Resolution.

Context {runtime : PyRuntime} {oracle : Oracle}.

(** C5. With both coordinates given, the resolver returns a location
    with exactly these coordinates, named after the city when one is
    given (and not empty) and after the coordinates formatted with three
    decimals otherwise; the world is left as it was: no cache access, no
    upstream call, no suspension point. *)
Theorem coordinates_resolve_directly q la lo w :
  lat q = Some la ->
  lon q = Some lo ->
  exists loc,
    resolve_location q w = (Ret loc, w)
    /\ latitude loc = la
    /\ longitude loc = lo
    /\ name loc
       = JStr (match city q with
               | Some (String a r) => String a r
               | _ => PyFloat.format_f 3 la +:+ "," +:+ PyFloat.format_f 3 lo
               end)
    /\ country loc = JNull
    /\ admin1 loc = JNull.
Proof.
  intros Hla Hlo. unfold resolve_location. rewrite Hla, Hlo.
  eexists. split; [reflexivity |]. simpl.
  repeat split. now destruct (city q) as [[|] |].
Qed.

(** The code an integer or missing [weathercode] field stands for. *)
Lemma weathercode_entry_int (wc : option Z) :
  weathercode_entry (from_option JInt JNull wc)
  = Ret (wc ≫= (WEATHERCODE_MAP !!.)).
Proof. now destruct wc. Qed.

(** C6. The annotation is the three-case function of the weather code:
    for a current-conditions dictionary whose [weathercode] is the
    integer [c], the description and icon are those of the table entry
    of [c] when there is one, and ["Weather code c"] with the fallback
    icon when there is none; without the field (or with a null one) they
    are the empty string and the fallback icon. The response carries
    exactly this pair. *)
Theorem weather_code_annotation current (wc : option Z) :
  Py.get current "weathercode" JNull = Ret (from_option JInt JNull wc) ->
  annotate current = Ret (annotation_of_code wc)
  /\ (forall loc hl w forecast,
        fst (load_forecast loc hl w) = Ret forecast ->
        Py.get forecast "current_weather" JNull = Ret current ->
        exists resp,
          fst (weather_at loc hl w) = Ret resp
          /\ weather_desc resp = fst (annotation_of_code wc)
          /\ weather_icon resp = snd (annotation_of_code wc)).
Proof.
  intros Hwc.
  assert (Hann : annotate current = Ret (annotation_of_code wc)).
  { unfold annotate. rewrite Hwc, weathercode_entry_int.
    destruct wc as [c |]; simpl; [| reflexivity].
    now destruct (WEATHERCODE_MAP !! c). }
  split; [exact Hann |].
  intros loc hl w forecast Hload Hcur.
  unfold weather_at.
  destruct (load_forecast loc hl w) as [o w'] eqn:E. simpl in Hload. subst o.
  rewrite (bind_ret _ _ _ _ _ E).
  rewrite (bind_lift_ret _ _ _ _ Hcur).
  assert (Hh : exists h, Py.get forecast "hourly" (JObj []) = Ret h).
  { destruct forecast; try discriminate. eexists; reflexivity. }
  destruct Hh as [h Hh]. rewrite (bind_lift_ret _ _ _ _ Hh).
  assert (Hnn : Py.is_none current = false).
  { destruct current; try discriminate. reflexivity. }
  rewrite Hnn. rewrite (bind_lift_ret _ _ _ _ Hann).
  eexists. split; [reflexivity |]. split; reflexivity.
Qed.

Lemma map_filter_comm {A B} (f : A -> B) (p : B -> bool) (l : list A) :
  List.map f (List.filter (fun x => p (f x)) l) = List.filter p (List.map f l).
Proof.
  induction l as [| x l IH]; simpl; [reflexivity |].
  destruct (p (f x)); simpl; now rewrite IH.
Qed.

Lemma load_forecast_trace loc hl w :
  let key := forecast_key loc hl in
  trace (snd (load_forecast loc hl w)) = trace w ++ [CacheGet key]
  \/ trace (snd (load_forecast loc hl w))
     = trace w ++ [CacheGet key;
                   HttpGet FORECAST_URL (forecast_params loc hl)]
  \/ trace (snd (load_forecast loc hl w))
     = trace w ++ [CacheGet key;
                   HttpGet FORECAST_URL (forecast_params loc hl);
                   CacheSet key].
Proof.
  intros key. unfold load_forecast. fold key.
  destruct (cache_get_returns key w) as (c & m & E & _).
  rewrite (bind_ret _ _ _ _ _ E).
  destruct (Py.is_none c); simpl; [| now left].
  right. unfold bind, fetch_json, cache_set, ret, step. simpl.
  destruct (http_get (S (tick w)) FORECAST_URL (forecast_params loc hl)); simpl;
    rewrite <- ?app_assoc; [right | left]; reflexivity.
Qed.

End Resolution.

(** ** Geocoding failures *)

Section Geocoding.

Context {runtime : PyRuntime} {oracle : Oracle}.

(** C9. A request by city (no full coordinate pair) that misses the
    geocoding cache and whose geocoding reply has no candidate
    ([results] missing, empty or otherwise falsy) raises the 404
    [HTTPException]; the handler stops after the upstream call without a
    cache write, so every entry of the cache afterwards was there
    before. *)
Theorem unknown_city_is_not_found q c w geocode results :
  city q = Some c ->
  PyStr.truthy c = true ->
  lat q = None \/ lon q = None ->
  fst (cache_get (geocode_key c) w) = Ret JNull ->
  http_get (S (tick w)) GEOCODE_URL (geocode_params c) = Some geocode ->
  geocode_results geocode = Ret results ->
  Py.truthy results = false ->
  fst (get_weather q w)
  = Raise (HTTPException 404 ("City '" +:+ c +:+ "' not found"))
  /\ trace (snd (get_weather q w))
     = trace w ++ [CacheGet (geocode_key c);
                   HttpGet GEOCODE_URL (geocode_params c)]
  /\ (forall k e,
        _cache (snd (get_weather q w)) !! k = Some e ->
        _cache w !! k = Some e).
Proof.
  intros Hcity Hc Hpair Hmiss Hhttp Hres Hfalsy.
  destruct (cache_get_returns (geocode_key c) w) as (v & m & E & Hm).
  rewrite E in Hmiss. simpl in Hmiss. inversion Hmiss; subst v.
  assert (Hrun : get_weather q w
                 = (Raise (HTTPException 404 ("City '" +:+ c +:+ "' not found")),
                    step (HttpGet GEOCODE_URL (geocode_params c)) m
                      (step (CacheGet (geocode_key c)) m w))).
  { unfold get_weather, no_city. rewrite Hcity, Hc. simpl.
    unfold resolve_location. rewrite Hcity.
    destruct (lat q), (lon q);
      [destruct Hpair; discriminate | | |];
      unfold bind in *; simpl in *; rewrite E in *; simpl in *;
      unfold fetch_json in *; simpl in *; rewrite Hhttp in *;
      rewrite Hres in *; simpl in *; rewrite Hfalsy in *; reflexivity. }
  rewrite Hrun. simpl. split; [reflexivity |]. split.
  - now rewrite <- app_assoc.
  - intros k e Hk. destruct Hm as [-> | ->]; [exact Hk |].
    destruct (decide (geocode_key c = k)) as [<- | Hne].
    + rewrite lookup_delete_eq in Hk. discriminate.
    + now rewrite lookup_delete_ne in Hk.
Qed.

End Geocoding.

(** ** The forecast cache key *)

Lemma string_length_app (s t : string) :
  String.length (s +:+ t) = String.length s + String.length t.
Proof. induction s as [| a s IH]; simpl; [reflexivity | now rewrite IH]. Qed.

Lemma fixed_digits_length d : forall n, String.length (PyFloat.fixed_digits d n) = d.
Proof.
  induction d as [| d IH]; intros n; simpl; [reflexivity |].
  rewrite string_length_app, IH. simpl. lia.
Qed.

(** The scaled integer is a nearest one: twice the distance between
    [m * 10^d] and [n * 2^(-e)] is at most [2^(-e)]. *)
Lemma scaled_round_nearest d m e :
  let n := PyFloat.scaled_round d m e in
  ((0 <= e -> n = Z.pos m * 10 ^ Z.of_nat d * 2 ^ e)
   /\ (e < 0 -> Z.abs (2 * (Z.pos m * 10 ^ Z.of_nat d) - 2 * n * 2 ^ (- e))
                <= 2 ^ (- e)))%Z.
Proof.
  unfold PyFloat.scaled_round. split.
  - intros He. now apply Z.leb_le in He as ->.
  - intros He. assert (Hf : (0 <=? e)%Z = false) by (apply Z.leb_gt; exact He).
    rewrite Hf.
    set (N := (Z.pos m * 10 ^ Z.of_nat d)%Z).
    set (den := (2 ^ (- e))%Z).
    assert (Hden : (0 < den)%Z) by (apply Z.pow_pos_nonneg; lia).
    pose proof (Z.div_mod N den ltac:(lia)) as Hdm.
    pose proof (Z.mod_pos_bound N den Hden) as Hr.
    set (q := (N / den)%Z) in *. set (r := (N mod den)%Z) in *.
    assert (Hq : forall k : Z, (2 * (q + k) * den = 2 * (den * q) + 2 * k * den)%Z)
      by (intros; ring).
    pose proof (Hq 0%Z) as Hq0. pose proof (Hq 1%Z) as Hq1.
    rewrite Z.add_0_r in Hq0.
    destruct (2 * r ?= den)%Z eqn:Hc.
    + apply Z.compare_eq in Hc. destruct (Z.even q); lia.
    + rewrite Z.compare_lt_iff in Hc. lia.
    + rewrite Z.compare_gt_iff in Hc. lia.
Qed.

Section ForecastKey.

Context {runtime : PyRuntime}.

Lemma forecast_key_not_geocode_key loc hl c :
  forecast_key loc hl <> geocode_key c.
Proof. unfold forecast_key, geocode_key. simpl. discriminate. Qed.

(** C2, as the code has it. The forecast cache key is ["forecast:"], the
    latitude and the longitude in fixed-point notation with four
    decimals (for a finite coordinate: the sign, the integer part, a
    point and exactly four digits of the nearest multiple of 0.0001),
    separated by a comma, then a colon and the variables joined by
    commas in the order of the request. It is never a geocoding key, and
    requests whose coordinates print alike and whose variable lists are
    equal, order included, have the same key. *)
Theorem forecast_key_format :
  (forall loc hl,
     forecast_key loc hl
     = "forecast:" +:+ PyFloat.format_f 4 (latitude loc) +:+ ","
       +:+ PyFloat.format_f 4 (longitude loc) +:+ ":" +:+ PyStr.join "," hl)
  /\ (forall s m e,
        let n := PyFloat.scaled_round 4 m e in
        PyFloat.format_f 4 (S754_finite s m e)
        = PyFloat.sign_str s +:+ pretty (n / 10000)%Z +:+ "."
          +:+ PyFloat.fixed_digits 4 n
        /\ String.length (PyFloat.fixed_digits 4 n) = 4
        /\ ((0 <= e -> n = Z.pos m * 10000 * 2 ^ e)
            /\ (e < 0 -> Z.abs (2 * (Z.pos m * 10000) - 2 * n * 2 ^ (- e))
                         <= 2 ^ (- e)))%Z)
  /\ (forall loc hl c, forecast_key loc hl <> geocode_key c)
  /\ (forall loc1 loc2 hl,
        PyFloat.format_f 4 (latitude loc1) = PyFloat.format_f 4 (latitude loc2) ->
        PyFloat.format_f 4 (longitude loc1) = PyFloat.format_f 4 (longitude loc2) ->
        forecast_key loc1 hl = forecast_key loc2 hl).
Proof.
  split; [reflexivity |]. split; [| split].
  - intros s m e n. split; [reflexivity |]. split.
    + apply fixed_digits_length.
    + exact (scaled_round_nearest 4 m e).
  - exact forecast_key_not_geocode_key.
  - intros loc1 loc2 hl Hla Hlo. unfold forecast_key. now rewrite Hla, Hlo.
Qed.

End ForecastKey.

(** ** Two requests within the TTL window *)

Lemma keeps_bind {A B} (R : World -> World -> Prop) (m : M A) (k : A -> M B) :
  (forall w1 w2 w3, R w1 w2 -> R w2 w3 -> R w1 w3) ->
  keeps R m -> (forall a, keeps R (k a)) -> keeps R (bind m k).
Proof.
  intros Htrans Hm Hk w. unfold bind. specialize (Hm w).
  destruct (m w) as [[a | e] w']; simpl in *; [| exact Hm].
  eapply Htrans; [exact Hm | apply Hk].
Qed.

Lemma forecast_calls_step ev c w :
  forecast_calls (trace (step ev c w))
  = forecast_calls (trace w) + (if is_forecast_call ev then 1 else 0).
Proof.
  unfold forecast_calls, step. simpl.
  rewrite List.filter_app, length_app. simpl.
  now destruct (is_forecast_call ev).
Qed.

Section TwoRequests.

Context {runtime : PyRuntime} {oracle : Oracle}.

Lemma geocode_frame_refl w : geocode_frame w w.
Proof. unfold geocode_frame. auto. Qed.

Lemma geocode_frame_trans w1 w2 w3 :
  geocode_frame w1 w2 -> geocode_frame w2 w3 -> geocode_frame w1 w3.
Proof.
  intros (C1 & F1 & T1) (C2 & F2 & T2). split; [| split].
  - intros k Hk. rewrite C2, C1; auto.
  - congruence.
  - lia.
Qed.

Lemma cache_get_geocode_frame c : keeps geocode_frame (cache_get (geocode_key c)).
Proof.
  intros w. destruct (cache_get_returns (geocode_key c) w) as (v & m & E & Hm).
  rewrite E. simpl. split; [| split].
  - intros k Hk. simpl. destruct Hm as [-> | ->]; [reflexivity |].
    apply lookup_delete_ne. intros Heq. now apply (Hk c).
  - rewrite forecast_calls_step. simpl. lia.
  - simpl. lia.
Qed.

Lemma cache_set_geocode_frame c v ttl :
  keeps geocode_frame (cache_set (geocode_key c) v ttl).
Proof.
  intros w. unfold cache_set. simpl. split; [| split].
  - intros k Hk. simpl. apply lookup_insert_ne. intros Heq. now apply (Hk c).
  - rewrite forecast_calls_step. simpl. lia.
  - simpl. lia.
Qed.

Lemma fetch_geocode_frame params :
  keeps geocode_frame (fetch_json GEOCODE_URL params).
Proof.
  intros w. unfold fetch_json. simpl. split; [| split].
  - reflexivity.
  - rewrite forecast_calls_step. simpl. lia.
  - simpl. lia.
Qed.

Lemma pure_geocode_frame {A} (o : outcome A) : keeps geocode_frame (lift o).
Proof. intros w. apply geocode_frame_refl. Qed.

Local Ltac frame_step :=
  match goal with
  | |- keeps _ (bind _ _) =>
      apply keeps_bind; [exact geocode_frame_trans | | intros ?]
  | |- keeps _ (ret _) => intros ?; apply geocode_frame_refl
  | |- keeps _ (raise _) => intros ?; apply geocode_frame_refl
  | |- keeps _ (lift _) => apply pure_geocode_frame
  | |- keeps _ (cache_get _) => apply cache_get_geocode_frame
  | |- keeps _ (cache_set _ _ _) => apply cache_set_geocode_frame
  | |- keeps _ (fetch_json _ _) => apply fetch_geocode_frame
  | |- keeps _ (if ?b then _ else _) => destruct b
  end.

Lemma resolve_location_frame q : keeps geocode_frame (resolve_location q).
Proof.
  unfold resolve_location.
  destruct (lat q), (lon q); repeat frame_step.
Qed.

(** The two ways [load_forecast] goes: a hit on a live entry with a
    value other than [None], or a miss followed by the upstream call
    and, if that returns, the cache write. *)
Lemma load_forecast_hit loc hl w entry :
  _cache w !! forecast_key loc hl = Some entry ->
  (_now (tick w) <= expires_at entry)%Z ->
  value entry <> JNull ->
  load_forecast loc hl w
  = (Ret (value entry), step (CacheGet (forecast_key loc hl)) (_cache w) w).
Proof.
  intros E Hle Hv. unfold load_forecast.
  rewrite (bind_ret _ _ _ _ _ (cache_get_fresh _ _ _ E Hle)).
  now destruct (value entry).
Qed.

Lemma load_forecast_cases loc hl w :
  let key := forecast_key loc hl in
  (exists v, load_forecast loc hl w = (Ret v, step (CacheGet key) (_cache w) w)
             /\ v <> JNull)
  \/ (exists m,
        let w1 := step (CacheGet key) m w in
        let w2 := step (HttpGet FORECAST_URL (forecast_params loc hl)) m w1 in
        match http_get (S (tick w)) FORECAST_URL (forecast_params loc hl) with
        | None => load_forecast loc hl w = (Raise HTTPError, w2)
        | Some body =>
            load_forecast loc hl w
            = (Ret body,
               step (CacheSet key)
                 (<[key := {| value := body;
                              expires_at := (_now (S (S (tick w)))
                                             + CACHE_TTL_SECONDS)%Z |}]> m) w2)
        end).
Proof.
  intros key. unfold load_forecast. fold key.
  unfold cache_get at 1.
  destruct (_cache w !! key) as [entry |] eqn:E.
  - destruct (expires_at entry <? _now (tick w))%Z eqn:Hlt.
    + right. exists (delete key (_cache w)). simpl.
      unfold bind, cache_get. rewrite E, Hlt. simpl.
      unfold fetch_json. simpl.
      now destruct (http_get (S (tick w)) FORECAST_URL (forecast_params loc hl)).
    + destruct (Py.is_none (value entry)) eqn:Hv.
      * right. exists (_cache w). simpl.
        unfold bind, cache_get. rewrite E, Hlt. simpl. rewrite Hv. simpl.
        unfold fetch_json. simpl.
        now destruct (http_get (S (tick w)) FORECAST_URL (forecast_params loc hl)).
      * left. exists (value entry). split.
        -- unfold bind, cache_get. rewrite E, Hlt. simpl. now rewrite Hv.
        -- intros Heq. rewrite Heq in Hv. discriminate.
  - right. exists (_cache w). simpl.
    unfold bind, cache_get. rewrite E. simpl.
    unfold fetch_json. simpl.
    now destruct (http_get (S (tick w)) FORECAST_URL (forecast_params loc hl)).
Qed.

(** After the forecast document is there, the handler only computes. *)
Lemma weather_at_world loc hl w :
  snd (weather_at loc hl w) = snd (load_forecast loc hl w).
Proof.
  unfold weather_at, bind, lift, raise, ret.
  destruct (load_forecast loc hl w) as [[f | e] w']; simpl; [| reflexivity].
  destruct (Py.get f "current_weather" JNull) as [cur | e]; simpl; [| reflexivity].
  destruct (Py.get f "hourly" (JObj [])) as [h | e]; simpl; [| reflexivity].
  destruct (Py.is_none cur); simpl; [reflexivity |].
  now destruct (annotate cur).
Qed.

Lemma weather_at_raises loc hl w e :
  fst (load_forecast loc hl w) = Raise e -> fst (weather_at loc hl w) = Raise e.
Proof.
  unfold weather_at, bind.
  destruct (load_forecast loc hl w) as [[f | e'] w']; simpl; congruence.
Qed.

Lemma weather_at_null loc hl w :
  fst (load_forecast loc hl w) = Ret JNull ->
  fst (weather_at loc hl w) = Raise AttributeError.
Proof.
  unfold weather_at, bind.
  destruct (load_forecast loc hl w) as [[f | e'] w']; simpl; [| discriminate].
  intros [= ->]. reflexivity.
Qed.

(** One request issues at most one forecast call. *)
Lemma load_forecast_calls loc hl w :
  forecast_calls (trace (snd (load_forecast loc hl w)))
  <= forecast_calls (trace w) + 1
  /\ tick w < tick (snd (load_forecast loc hl w)).
Proof.
  destruct (load_forecast_cases loc hl w) as [(v & E & _) | (m & E)].
  - rewrite E. cbn [snd]. rewrite forecast_calls_step. simpl. lia.
  - cbv zeta in E.
    destruct (http_get (S (tick w)) FORECAST_URL (forecast_params loc hl));
      rewrite E; cbn [snd]; rewrite !forecast_calls_step; simpl; lia.
Qed.

Lemma get_weather_unfold q w :
  get_weather q w
  = if no_city (city q) && (absent (lat q) || absent (lon q))
    then (Raise (HTTPException 400 "Provide either city or lat and lon"), w)
    else match resolve_location q w with
         | (Ret loc, w') => weather_at loc (hourly_list (hourly_vars q)) w'
         | (Raise e, w') => (Raise e, w')
         end.
Proof. unfold get_weather. now destruct (_ && _). Qed.

Lemma get_weather_calls q w :
  forecast_calls (trace (snd (get_weather q w))) <= forecast_calls (trace w) + 1.
Proof.
  rewrite get_weather_unfold.
  destruct (_ && _); simpl; [lia |].
  pose proof (resolve_location_frame q w) as (_ & F & _).
  destruct (resolve_location q w) as [[loc | e] w']; simpl in *; [| lia].
  rewrite weather_at_world.
  pose proof (load_forecast_calls loc (hourly_list (hourly_vars q)) w'). lia.
Qed.

(** A read returns [None] when every entry the cache may hold under the
    key has the value [None]. *)
Lemma cache_get_null key w :
  (forall e, _cache w !! key = Some e -> value e = JNull) ->
  exists m, cache_get key w = (Ret JNull, step (CacheGet key) m w).
Proof.
  intros Hnull. unfold cache_get.
  destruct (_cache w !! key) as [e |] eqn:E; [| eexists; reflexivity].
  destruct (expires_at e <? _now (tick w))%Z; [eexists; reflexivity |].
  rewrite (Hnull e eq_refl). eexists; reflexivity.
Qed.

(** After a read that returned [None], [load_forecast] calls upstream. *)
Lemma load_forecast_miss_calls loc hl w m :
  cache_get (forecast_key loc hl) w
  = (Ret JNull, step (CacheGet (forecast_key loc hl)) m w) ->
  forecast_calls (trace (snd (load_forecast loc hl w)))
  = forecast_calls (trace w) + 1.
Proof.
  intros E. unfold load_forecast.
  rewrite (bind_ret _ _ _ _ _ E). cbn [negb Py.is_none].
  unfold bind, fetch_json, cache_set, ret.
  destruct (http_get _ _ _); cbn [fst snd];
    rewrite !forecast_calls_step; simpl; lia.
Qed.

(** The two ways [load_forecast] goes, with what the cache holds under
    the key on a miss: nothing, or an entry whose value is [None]. *)
Lemma load_forecast_outcome loc hl w :
  let key := forecast_key loc hl in
  (exists v, load_forecast loc hl w = (Ret v, step (CacheGet key) (_cache w) w)
             /\ v <> JNull)
  \/ (exists m,
        let w1 := step (CacheGet key) m w in
        let w2 := step (HttpGet FORECAST_URL (forecast_params loc hl)) m w1 in
        (forall e, m !! key = Some e -> value e = JNull)
        /\ match http_get (S (tick w)) FORECAST_URL (forecast_params loc hl) with
           | None => load_forecast loc hl w = (Raise HTTPError, w2)
           | Some body =>
               load_forecast loc hl w
               = (Ret body,
                  step (CacheSet key)
                    (<[key := {| value := body;
                                 expires_at := (_now (S (S (tick w)))
                                                + CACHE_TTL_SECONDS)%Z |}]> m) w2)
           end).
Proof.
  intros key. unfold load_forecast. fold key.
  unfold cache_get at 1.
  destruct (_cache w !! key) as [entry |] eqn:E.
  - destruct (expires_at entry <? _now (tick w))%Z eqn:Hlt.
    + right. exists (delete key (_cache w)). cbv zeta. split.
      * intros e He. rewrite lookup_delete_eq in He. discriminate.
      * unfold bind, cache_get. rewrite E, Hlt. simpl.
        unfold fetch_json. simpl.
        now destruct (http_get (S (tick w)) FORECAST_URL (forecast_params loc hl)).
    + destruct (Py.is_none (value entry)) eqn:Hv.
      * right. exists (_cache w). cbv zeta. split.
        -- intros e He. rewrite E in He. injection He as <-.
           now destruct (value entry).
        -- unfold bind, cache_get. rewrite E, Hlt. simpl. rewrite Hv. simpl.
           unfold fetch_json. simpl.
           now destruct (http_get (S (tick w)) FORECAST_URL (forecast_params loc hl)).
      * left. exists (value entry). split.
        -- unfold bind, cache_get. rewrite E, Hlt. simpl. now rewrite Hv.
        -- intros Heq. rewrite Heq in Hv. discriminate.
  - right. exists (_cache w). cbv zeta. split.
    + intros e He. rewrite E in He. discriminate.
    + unfold bind, cache_get. rewrite E. simpl.
      unfold fetch_json. simpl.
      now destruct (http_get (S (tick w)) FORECAST_URL (forecast_params loc hl)).
Qed.

(** C7, as the code has it. Two requests in a row that resolve to the same
    location and ask for the same variables, no suspension point of the
    two more than the TTL after an earlier one.

    When the first request obtains a forecast document other than
    [None], from the cache or from upstream, at most one upstream
    forecast call is issued in all; and when the first issued that call,
    a second request that passes the input check issues none: it finds
    the entry the first wrote, with the document and the expiry of that
    write, and its forecast is read from it, the cache read being the
    only event.

    When the first request passes the input check and its upstream call
    fails (nothing is written) or returns [null] (an entry is written
    that every read takes for a miss), a second request that passes the
    input check calls upstream again: two calls in all. *)
Theorem one_forecast_call_within_ttl q1 q2 w0 loc :
  fst (resolve_location q1 w0) = Ret loc ->
  fst (resolve_location q2 (snd (get_weather q1 w0))) = Ret loc ->
  hourly_list (hourly_vars q1) = hourly_list (hourly_vars q2) ->
  (forall i j,
     tick w0 <= i -> i <= j ->
     j < tick (snd (get_weather q2 (snd (get_weather q1 w0)))) ->
     (_now j <= _now i + CACHE_TTL_SECONDS)%Z) ->
  (forall f,
     fst (load_forecast loc (hourly_list (hourly_vars q1))
            (snd (resolve_location q1 w0))) = Ret f ->
     f <> JNull ->
     forecast_calls (trace (snd (get_weather q2 (snd (get_weather q1 w0)))))
     <= forecast_calls (trace w0) + 1
     /\ (forecast_calls (trace (snd (get_weather q1 w0)))
         = forecast_calls (trace w0) + 1 ->
         no_city (city q2) && (absent (lat q2) || absent (lon q2)) = false ->
         forecast_calls (trace (snd (get_weather q2 (snd (get_weather q1 w0)))))
         = forecast_calls (trace (snd (get_weather q1 w0)))
         /\ _cache (snd (get_weather q1 w0))
              !! forecast_key loc (hourly_list (hourly_vars q1))
            = Some {| value := f;
                      expires_at :=
                        (_now (S (S (tick (snd (resolve_location q1 w0)))))
                         + CACHE_TTL_SECONDS)%Z |}
         /\ load_forecast loc (hourly_list (hourly_vars q2))
              (snd (resolve_location q2 (snd (get_weather q1 w0))))
            = (Ret f,
               step (CacheGet (forecast_key loc (hourly_list (hourly_vars q1))))
                 (_cache (snd (resolve_location q2 (snd (get_weather q1 w0)))))
                 (snd (resolve_location q2 (snd (get_weather q1 w0)))))))
  /\ (no_city (city q1) && (absent (lat q1) || absent (lon q1)) = false ->
      no_city (city q2) && (absent (lat q2) || absent (lon q2)) = false ->
      fst (load_forecast loc (hourly_list (hourly_vars q1))
             (snd (resolve_location q1 w0))) = Ret JNull
      \/ (exists e,
            fst (load_forecast loc (hourly_list (hourly_vars q1))
                   (snd (resolve_location q1 w0))) = Raise e) ->
      forecast_calls (trace (snd (get_weather q2 (snd (get_weather q1 w0)))))
      = forecast_calls (trace w0) + 2).
Proof.
  intros Hloc1 Hloc2 Hvars Hclock.
  pose proof (get_weather_calls q2 (snd (get_weather q1 w0))) as Hsecond.
  rewrite (get_weather_unfold q2) in *.
  set (hl := hourly_list (hourly_vars q1)) in *.
  rewrite <- Hvars in *. clear Hvars.
  set (key := forecast_key loc hl).
  rewrite (get_weather_unfold q1 w0) in *.
  pose proof (resolve_location_frame q1 w0) as (_ & Fa & Ta).
  destruct (resolve_location q1 w0) as [[loc1 | e1] wa]; [| discriminate].
  cbn [fst snd] in Hloc1, Fa, Ta |- *. injection Hloc1 as ->.
  fold hl in Hloc2, Hsecond, Hclock |- *.
  pose proof (weather_at_world loc hl wa) as Hw1.
  split.
  - (* the first request obtained a document *)
    intros f Hf Hnot.
    destruct (no_city (city q1) && (absent (lat q1) || absent (lon q1))).
    { cbn [snd] in *. split; [exact Hsecond | lia]. }
    destruct (load_forecast_outcome loc hl wa) as [(v & E & _) | (m & _ & E)].
    { (* served from the cache: no call by the first *)
      rewrite E in Hw1. cbn [snd] in Hw1.
      assert (F1 : forecast_calls (trace (snd (weather_at loc hl wa)))
                   = forecast_calls (trace wa))
        by (rewrite Hw1, forecast_calls_step; simpl; lia).
      split; lia. }
    cbv zeta in E. fold key in E.
    destruct (http_get (S (tick wa)) FORECAST_URL (forecast_params loc hl))
      as [body |]; [| rewrite E in Hf; discriminate].
    rewrite E in Hf, Hw1. cbn [fst snd] in Hf, Hw1. injection Hf as ->.
    set (w1 := snd (weather_at loc hl wa)) in *.
    assert (C1 : _cache w1 !! key
                 = Some {| value := f;
                           expires_at := (_now (S (S (tick wa)))
                                          + CACHE_TTL_SECONDS)%Z |})
      by (rewrite Hw1; simpl; apply lookup_insert_eq).
    assert (T1 : tick w1 = S (S (S (tick wa)))) by (rewrite Hw1; reflexivity).
    assert (F1 : forecast_calls (trace w1) = forecast_calls (trace w0) + 1).
    { rewrite Hw1, !forecast_calls_step. simpl. lia. }
    destruct (no_city (city q2) && (absent (lat q2) || absent (lon q2))).
    { cbn [snd] in *. split; [lia |]. intros _ [=]. }
    pose proof (resolve_location_frame q2 w1) as (Cb & Fb & Tb).
    destruct (resolve_location q2 w1) as [[loc2 | e2] wb]; [| discriminate].
    cbn [fst snd] in Hloc2, Cb, Fb, Tb |- *. injection Hloc2 as ->.
    rewrite weather_at_world in *.
    assert (Cwb : _cache wb !! key = _cache w1 !! key).
    { apply Cb. intros c. apply forecast_key_not_geocode_key. }
    rewrite C1 in Cwb.
    pose proof (load_forecast_calls loc hl wb) as (_ & Tw2).
    assert (Hlive : (_now (tick wb) <= _now (S (S (tick wa))) + CACHE_TTL_SECONDS)%Z)
      by (apply Hclock; lia).
    rewrite (load_forecast_hit loc hl wb _ Cwb Hlive Hnot).
    cbn [snd]. rewrite forecast_calls_step. simpl.
    split; [lia |]. intros _ _. split; [lia |]. split; [exact C1 | reflexivity].
  - (* the first request obtained nothing it could read again *)
    intros G1 G2 Hnone. rewrite G1, G2 in *.
    destruct (load_forecast_outcome loc hl wa) as [(v & E & Hv) | (m & Hm & E)].
    { rewrite E in Hnone. cbn [fst] in Hnone.
      destruct Hnone as [[= ->] | (e & [=])]. congruence. }
    cbv zeta in E. fold key in E, Hm.
    set (w1 := snd (weather_at loc hl wa)) in *.
    assert (F1 : forecast_calls (trace w1) = forecast_calls (trace w0) + 1
                 /\ forall e, _cache w1 !! key = Some e -> value e = JNull).
    { destruct (http_get (S (tick wa)) FORECAST_URL (forecast_params loc hl))
        as [body |]; rewrite E in Hw1, Hnone; cbn [fst snd] in Hw1, Hnone;
        rewrite Hw1, !forecast_calls_step; simpl; (split; [lia |]).
      - destruct Hnone as [[= ->] | (e & [=])].
        intros e He. rewrite lookup_insert_eq in He. now injection He as <-.
      - exact Hm. }
    destruct F1 as (F1 & Hnull).
    pose proof (resolve_location_frame q2 w1) as (Cb & Fb & Tb).
    destruct (resolve_location q2 w1) as [[loc2 | e2] wb]; [| discriminate].
    cbn [fst snd] in Hloc2, Cb, Fb, Tb |- *. injection Hloc2 as ->.
    rewrite weather_at_world.
    assert (Cwb : _cache wb !! key = _cache w1 !! key).
    { apply Cb. intros c. apply forecast_key_not_geocode_key. }
    destruct (cache_get_null key wb) as (m' & Hmiss).
    { intros e He. apply Hnull. now rewrite <- Cwb. }
    rewrite (load_forecast_miss_calls loc hl wb m' Hmiss). lia.
Qed.

End TwoRequests.

(** ** Closed instances *)

Example split_csv : PyStr.split "," "a, b,,c" = ["a"; " b"; ""; "c"].
Proof. reflexivity. Qed.

Example split_empty_text : PyStr.split "," "" = [""].
Proof. reflexivity. Qed.

Example strip_spaces : PyStr.strip "  temperature_2m " = "temperature_2m".
Proof. reflexivity. Qed.

Example hourly_list_default :
  hourly_list (Some DEFAULT_HOURLY_VARS)
  = ["temperature_2m"; "relativehumidity_2m"; "windspeed_10m"].
Proof. reflexivity. Qed.

Example hourly_list_blank_entries :
  hourly_list (Some " temperature_2m , ,,windspeed_10m,")
  = ["temperature_2m"; "windspeed_10m"]
  /\ hourly_list (Some " , ") = [] /\ hourly_list None = [].
Proof. repeat split. Qed.

Example format_latitude : PyFloat.format_f 4 new_york_lat = "40.7128".
Proof. vm_compute. reflexivity. Qed.

Example format_longitude : PyFloat.format_f 4 new_york_lon = "-74.0060".
Proof. vm_compute. reflexivity. Qed.

(** 0.00005 and -0.000025 as binary64. *)
Example format_rounds_up :
  PyFloat.format_f 4 (S754_finite false 7378697629483821 (-67)) = "0.0001".
Proof. vm_compute. reflexivity. Qed.

Example format_keeps_sign :
  PyFloat.format_f 4 (S754_finite true 7378697629483821 (-68)) = "-0.0000".
Proof. vm_compute. reflexivity. Qed.

Example format_not_finite :
  PyFloat.format_f 4 S754_nan = "nan"
  /\ PyFloat.format_f 4 (S754_infinity true) = "-inf".
Proof. split; reflexivity. Qed.

(** The end-to-end property of the specification: a request by
    coordinates against a forecast service that reports code 3. *)
Example weather_by_coordinates :
  exists resp,
    fst (@get_weather ascii_runtime (steady (candidates []) overcast)
           by_coordinates empty_world) = Ret resp
    /\ weather_desc resp = "Overcast"
    /\ location resp = new_york
    /\ hourly resp = JObj [].
Proof. eexists. split; [vm_compute; reflexivity |]. repeat split. Qed.

Example annotate_clear_sky :
  @annotate ascii_runtime (JObj [("weathercode", JInt 0)])
  = Ret ("Clear sky", "â˜€ï¸").
Proof. vm_compute. reflexivity. Qed.

Example annotate_unmapped :
  @annotate ascii_runtime (JObj [("weathercode", JInt 999)])
  = Ret ("Weather code 999", FALLBACK_ICON).
Proof. vm_compute. reflexivity. Qed.

Example annotate_without_code :
  @annotate ascii_runtime (JObj [("temperature", JInt 15)])
  = Ret ("", FALLBACK_ICON).
Proof. vm_compute. reflexivity. Qed.

(** C3 at an entry that expired at second 900, read at second 1000. *)
Lemma expired_entry_witness :
  fst (@cache_get (steady JNull JNull) "k" stale_world) = Ret JNull
  /\ _cache (snd (@cache_get (steady JNull JNull) "k" stale_world))
     = delete "k" (_cache stale_world)
  /\ (forall ops,
        forallb (fun op => negb (writes "k" op)) ops = true ->
        fst (@cache_get (steady JNull JNull) "k"
               (@run_ops (steady JNull JNull) ops
                  (snd (@cache_get (steady JNull JNull) "k" stale_world))))
        = Ret JNull)
  /\ @cache_get (steady JNull JNull) "k" stale_world
     = @cache_get (steady JNull JNull) "k"
         {| _cache := delete "k" (_cache stale_world);
            tick := tick stale_world; trace := trace stale_world |}.
Proof.
  apply (@expired_entry_reads_as_absent (steady JNull JNull) "k" stale_world
           {| value := JInt 1; expires_at := 900 |}).
  - reflexivity.
  - vm_compute. reflexivity.
Defined.

(** C5 at a request for New York by coordinates, without a city. *)
Lemma coordinates_resolve_witness :
  exists loc,
    @resolve_location ascii_runtime (steady JNull JNull) by_coordinates empty_world
    = (Ret loc, empty_world)
    /\ latitude loc = new_york_lat
    /\ longitude loc = new_york_lon
    /\ name loc
       = JStr (match city by_coordinates with
               | Some (String a r) => String a r
               | _ => PyFloat.format_f 3 new_york_lat +:+ ","
                      +:+ PyFloat.format_f 3 new_york_lon
               end)
    /\ country loc = JNull
    /\ admin1 loc = JNull.
Proof.
  apply (@coordinates_resolve_directly ascii_runtime (steady JNull JNull)
           by_coordinates new_york_lat new_york_lon empty_world);
    reflexivity.
Defined.

(** C6 at current conditions that report code 3. *)
Lemma weather_code_witness :
  @annotate ascii_runtime
    (JObj [("weathercode", JInt 3); ("temperature", JInt 15)])
  = Ret (annotation_of_code (Some 3%Z))
  /\ (forall loc hl w forecast,
        fst (@load_forecast (steady JNull overcast) loc hl w) = Ret forecast ->
        Py.get forecast "current_weather" JNull
        = Ret (JObj [("weathercode", JInt 3); ("temperature", JInt 15)]) ->
        exists resp,
          fst (@weather_at ascii_runtime (steady JNull overcast) loc hl w) = Ret resp
          /\ weather_desc resp = fst (annotation_of_code (Some 3%Z))
          /\ weather_icon resp = snd (annotation_of_code (Some 3%Z))).
Proof.
  apply (@weather_code_annotation ascii_runtime (steady JNull overcast)
           (JObj [("weathercode", JInt 3); ("temperature", JInt 15)]) (Some 3%Z)).
  reflexivity.
Defined.

(** C9 at a city for which the geocoding service has no candidate. *)
Lemma unknown_city_witness :
  fst (@get_weather ascii_runtime (steady (candidates []) overcast)
         (by_city "Nonexististan") empty_world)
  = Raise (HTTPException 404 "City 'Nonexististan' not found")
  /\ trace (snd (@get_weather ascii_runtime (steady (candidates []) overcast)
                   (by_city "Nonexististan") empty_world))
     = trace empty_world
       ++ [CacheGet (@geocode_key ascii_runtime "Nonexististan");
           HttpGet GEOCODE_URL (geocode_params "Nonexististan")]
  /\ (forall k e,
        _cache (snd (@get_weather ascii_runtime (steady (candidates []) overcast)
                       (by_city "Nonexististan") empty_world)) !! k = Some e ->
        _cache empty_world !! k = Some e).
Proof.
  apply (@unknown_city_is_not_found ascii_runtime (steady (candidates []) overcast)
           (by_city "Nonexististan") "Nonexististan" empty_world
           (candidates []) (JList [])).
  - reflexivity.
  - reflexivity.
  - left. reflexivity.
  - reflexivity.
  - reflexivity.
  - reflexivity.
  - reflexivity.
Defined.

(** C7 at the same request by coordinates made twice on a standing clock:
    one upstream call, made by the first request, whose entry serves the
    second. *)
Lemma one_forecast_call_witness :
  forecast_calls
    (trace (snd (@get_weather ascii_runtime (steady JNull overcast) by_coordinates
                   (snd (@get_weather ascii_runtime (steady JNull overcast)
                           by_coordinates empty_world)))))
  <= forecast_calls (trace empty_world) + 1
  /\ forecast_calls
       (trace (snd (@get_weather ascii_runtime (steady JNull overcast) by_coordinates
                      (snd (@get_weather ascii_runtime (steady JNull overcast)
                              by_coordinates empty_world)))))
     = forecast_calls
         (trace (snd (@get_weather ascii_runtime (steady JNull overcast)
                        by_coordinates empty_world)))
  /\ _cache (snd (@get_weather ascii_runtime (steady JNull overcast)
                    by_coordinates empty_world))
       !! forecast_key new_york (hourly_list (Some DEFAULT_HOURLY_VARS))
     = Some {| value := overcast; expires_at := 1300 |}.
Proof.
  destruct (proj1 (@one_forecast_call_within_ttl ascii_runtime
                     (steady JNull overcast)
                     by_coordinates by_coordinates empty_world new_york
                     eq_refl eq_refl eq_refl
                     ltac:(intros i j _ _ _; vm_compute; discriminate))
              overcast ltac:(vm_compute; reflexivity) ltac:(discriminate))
    as [Hbound Hserved].
  split; [exact Hbound |].
  destruct (Hserved ltac:(vm_compute; reflexivity) eq_refl)
    as (Hnone & Hentry & _).
  split; [exact Hnone | exact Hentry].
Defined.

(** C7, refuted as stated, without the proviso on what the first request
    obtained: the same request by coordinates twice on a standing clock. With a forecast service that answers [null], the first request
    stores the answer and the second, reading it as a miss, calls again;
    with a forecast service out of reach, nothing is stored and the
    second calls again. Two upstream calls each time. *)
Lemma one_forecast_call_counterexample :
  (fst (@resolve_location ascii_runtime (steady JNull JNull) by_coordinates
          empty_world) = Ret new_york
   /\ fst (@resolve_location ascii_runtime (steady JNull JNull) by_coordinates
             (snd (@get_weather ascii_runtime (steady JNull JNull)
                     by_coordinates empty_world))) = Ret new_york
   /\ _cache (snd (@get_weather ascii_runtime (steady JNull JNull)
                     by_coordinates empty_world))
        !! forecast_key new_york (hourly_list (Some DEFAULT_HOURLY_VARS))
      = Some {| value := JNull; expires_at := 1300 |}
   /\ forecast_calls
        (trace (snd (@get_weather ascii_runtime (steady JNull JNull) by_coordinates
                       (snd (@get_weather ascii_runtime (steady JNull JNull)
                               by_coordinates empty_world))))) = 2)
  /\ (fst (@resolve_location ascii_runtime unreachable by_coordinates
             empty_world) = Ret new_york
      /\ fst (@resolve_location ascii_runtime unreachable by_coordinates
                (snd (@get_weather ascii_runtime unreachable
                        by_coordinates empty_world))) = Ret new_york
      /\ _cache (snd (@get_weather ascii_runtime unreachable
                        by_coordinates empty_world))
           !! forecast_key new_york (hourly_list (Some DEFAULT_HOURLY_VARS))
         = None
      /\ forecast_calls
           (trace (snd (@get_weather ascii_runtime unreachable by_coordinates
                          (snd (@get_weather ascii_runtime unreachable
                                  by_coordinates empty_world))))) = 2).
Proof. repeat split; vm_compute; reflexivity. Qed.

(** The two runs of the witness: one upstream call, then a cache hit. *)
Example second_request_hits_cache :
  trace (snd (@get_weather ascii_runtime (steady JNull overcast) by_coordinates
                (snd (@get_weather ascii_runtime (steady JNull overcast)
                        by_coordinates empty_world))))
  = [CacheGet (forecast_key new_york (hourly_list (Some DEFAULT_HOURLY_VARS)));
     HttpGet FORECAST_URL
       (forecast_params new_york (hourly_list (Some DEFAULT_HOURLY_VARS)));
     CacheSet (forecast_key new_york (hourly_list (Some DEFAULT_HOURLY_VARS)));
     CacheGet (forecast_key new_york (hourly_list (Some DEFAULT_HOURLY_VARS)))].
Proof. vm_compute. reflexivity. Qed.

(** ** Contract violations and the cache *)

Section ContractViolations.

Context {runtime : PyRuntime} {oracle : Oracle}.

(** In every environment: after a miss, a forecast document without
    [current_weather] is in the cache when the 502 is raised. *)
Lemma forecast_without_current_is_cached loc hl w items :
  fst (cache_get (forecast_key loc hl) w) = Ret JNull ->
  http_get (S (tick w)) FORECAST_URL (forecast_params loc hl) = Some (JObj items) ->
  Py.lookup items "current_weather" = None ->
  fst (weather_at loc hl w)
  = Raise (HTTPException 502 "No current weather returned by upstream API")
  /\ _cache (snd (weather_at loc hl w)) !! forecast_key loc hl
     = Some {| value := JObj items;
               expires_at := (_now (S (S (tick w))) + CACHE_TTL_SECONDS)%Z |}.
Proof.
  intros Hmiss Hhttp Hcur.
  destruct (cache_get_returns (forecast_key loc hl) w) as (v & m & E & _).
  rewrite E in Hmiss. cbn [fst] in Hmiss. injection Hmiss as ->.
  unfold weather_at, load_forecast.
  unfold bind, fetch_json, cache_set, ret, lift, raise.
  rewrite E. simpl. rewrite Hhttp. simpl. rewrite Hcur. simpl.
  split; [reflexivity | apply lookup_insert_eq].
Qed.

(** In every environment: after a miss, a top candidate without a
    latitude is in the cache when the 502 is raised. *)
Lemma candidate_without_latitude_is_cached q c w geocode rest items :
  city q = Some c ->
  PyStr.truthy c = true ->
  lat q = None \/ lon q = None ->
  fst (cache_get (geocode_key c) w) = Ret JNull ->
  http_get (S (tick w)) GEOCODE_URL (geocode_params c) = Some geocode ->
  geocode_results geocode = Ret (JList (JObj items :: rest)) ->
  Py.lookup items "latitude" = None ->
  fst (get_weather q w)
  = Raise (HTTPException 502 "Upstream geocoding did not return coordinates")
  /\ _cache (snd (get_weather q w)) !! geocode_key c
     = Some {| value := JObj items;
               expires_at := (_now (S (S (tick w))) + CACHE_TTL_SECONDS)%Z |}.
Proof.
  intros Hcity Hc Hpair Hmiss Hhttp Hres Hlat.
  destruct (cache_get_returns (geocode_key c) w) as (v & m & E & _).
  rewrite E in Hmiss. cbn [fst] in Hmiss. injection Hmiss as ->.
  unfold get_weather, no_city. rewrite Hcity, Hc. simpl.
  unfold resolve_location. rewrite Hcity.
  destruct (lat q), (lon q);
    [destruct Hpair; discriminate | | |];
    unfold bind, fetch_json, cache_set, ret, lift, raise; simpl;
    rewrite E; simpl; rewrite Hhttp, Hres; simpl; rewrite Hlat; simpl;
    (split; [reflexivity | apply lookup_insert_eq]).
Qed.

End ContractViolations.

(** C1, at the failing inputs. A geocoding reply whose top candidate has
    no coordinates, and a forecast reply without [current_weather], are
    written to the cache before the handler checks them and raises 502.
    The next request for the same key reads the entry, raises the same
    502 and issues no upstream call, although upstream would now answer
    with a sound document. *)
Theorem contract_violations_are_cached :
  let geo1 := @get_weather ascii_runtime recovering (by_city "Atlantis") empty_world in
  let geo2 := @get_weather ascii_runtime recovering (by_city "Atlantis") (snd geo1) in
  let fc1 := @get_weather ascii_runtime recovering by_coordinates empty_world in
  let fc2 := @get_weather ascii_runtime recovering by_coordinates (snd fc1) in
  (fst geo1 = Raise (HTTPException 502 "Upstream geocoding did not return coordinates")
   /\ _cache (snd geo1) !! "geocode:atlantis"
      = Some {| value := atlantis_without_coordinates; expires_at := 1300 |}
   /\ fst geo2 = Raise (HTTPException 502 "Upstream geocoding did not return coordinates")
   /\ trace (snd geo2) = trace (snd geo1) ++ [CacheGet "geocode:atlantis"]
   /\ @http_get recovering (tick (snd geo1) + 1) GEOCODE_URL (geocode_params "Atlantis")
      = Some (candidates [atlantis]))
  /\ (fst fc1 = Raise (HTTPException 502 "No current weather returned by upstream API")
      /\ _cache (snd fc1) !! "forecast:40.7128,-74.0060:temperature_2m,relativehumidity_2m,windspeed_10m"
         = Some {| value := forecast_without_current; expires_at := 1300 |}
      /\ fst fc2 = Raise (HTTPException 502 "No current weather returned by upstream API")
      /\ forecast_calls (trace (snd fc2)) = forecast_calls (trace (snd fc1))
      /\ @http_get recovering (tick (snd fc1) + 1) FORECAST_URL
           (forecast_params new_york (hourly_list (Some DEFAULT_HOURLY_VARS)))
         = Some overcast).
Proof. vm_compute. repeat split. Qed.

(** ** The forecast key and the order of the variables *)

(** C2, refuted as stated. Two variable lists that are permutations of
    each other, as two requests give them, with their forecast keys: the
    keys differ. And a coordinate that is not a number has no decimals in
    the key. *)
Lemma forecast_key_counterexample :
  hourly_list (Some "temperature_2m,windspeed_10m")
  = ["temperature_2m"; "windspeed_10m"]
  /\ hourly_list (Some "windspeed_10m,temperature_2m")
     = ["windspeed_10m"; "temperature_2m"]
  /\ Permutation ["temperature_2m"; "windspeed_10m"]
                 ["windspeed_10m"; "temperature_2m"]
  /\ forecast_key new_york ["temperature_2m"; "windspeed_10m"]
     = "forecast:40.7128,-74.0060:temperature_2m,windspeed_10m"
  /\ forecast_key new_york ["windspeed_10m"; "temperature_2m"]
     = "forecast:40.7128,-74.0060:windspeed_10m,temperature_2m"
  /\ String.eqb (forecast_key new_york ["temperature_2m"; "windspeed_10m"])
                (forecast_key new_york ["windspeed_10m"; "temperature_2m"])
     = false
  /\ forecast_key
       {| name := JStr "nan,nan"; latitude := S754_nan; longitude := S754_nan;
          country := JNull; admin1 := JNull |} ["temperature_2m"]
     = "forecast:nan,nan:temperature_2m".
Proof.
  split; [reflexivity |]. split; [reflexivity |].
  split; [apply perm_swap |].
  vm_compute. repeat split.
Qed.

(** ** More of the cache and of the resolver *)

Section MoreFacts.

Context {runtime : PyRuntime} {oracle : Oracle}.

(** A write replaces whatever the key held, and a read at a second not
    after the expiry time returns the value last written. *)
Theorem cache_set_overwrites key v1 ttl1 v2 ttl2 w :
  _cache (snd (cache_set key v2 ttl2 (snd (cache_set key v1 ttl1 w))))
  = <[key := {| value := v2;
                expires_at := (_now (S (tick w)) + ttl2)%Z |}]> (_cache w)
  /\ (forall w',
        _cache w' = _cache (snd (cache_set key v2 ttl2 (snd (cache_set key v1 ttl1 w)))) ->
        (_now (tick w') <= _now (S (tick w)) + ttl2)%Z ->
        fst (cache_get key w') = Ret v2).
Proof.
  split.
  - simpl. apply insert_insert_eq.
  - intros w' Hc Hle.
    rewrite (cache_get_fresh key w'
               {| value := v2; expires_at := (_now (S (tick w)) + ttl2)%Z |});
      [reflexivity | | exact Hle].
    rewrite Hc. simpl. apply lookup_insert_eq.
Qed.

(** A request issues at most one upstream forecast call, and its
    resolver none. *)
Theorem at_most_one_forecast_call_per_request q w :
  forecast_calls (trace (snd (resolve_location q w))) = forecast_calls (trace w)
  /\ forecast_calls (trace (snd (get_weather q w))) <= forecast_calls (trace w) + 1.
Proof.
  split.
  - now destruct (resolve_location_frame q w) as (_ & F & _).
  - apply get_weather_calls.
Qed.

(** A request by city reads the cache under the lower-cased city and, on
    a miss, queries the geocoding service with the city as given, asking
    for one candidate. *)
Theorem geocoding_lookup_and_query q c w :
  city q = Some c ->
  PyStr.truthy c = true ->
  lat q = None \/ lon q = None ->
  fst (cache_get (geocode_key c) w) = Ret JNull ->
  exists rest,
    trace (snd (get_weather q w))
    = trace w ++ CacheGet ("geocode:" +:+ str_lower c)
                 :: HttpGet GEOCODE_URL
                      [("name", JStr c); ("count", JInt 1);
                       ("language", JStr "en"); ("format", JStr "json")]
                 :: rest.
Proof.
  intros Hcity Hc Hpair Hmiss.
  destruct (cache_get_returns (geocode_key c) w) as (v & m & E & _).
  rewrite E in Hmiss. cbn [fst] in Hmiss. injection Hmiss as ->.
  rewrite get_weather_unfold. unfold no_city. rewrite Hcity, Hc. cbn [negb andb].
  assert (Hres : exists w1,
            snd (resolve_location q w) = w1
            /\ exists rest1,
                 trace w1 = trace w ++ CacheGet (geocode_key c)
                            :: HttpGet GEOCODE_URL (geocode_params c) :: rest1).
  { unfold resolve_location. rewrite Hcity.
    destruct (lat q), (lon q); [destruct Hpair; discriminate | | |];
      (eexists; split; [reflexivity |]);
      unfold bind, lift, fetch_json; rewrite E; cbn [negb Py.is_none];
      destruct (http_get _ _ _) as [geocode |]; cbn [fst snd];
      try (eexists; unfold step; simpl; rewrite <- app_assoc; reflexivity);
      destruct (geocode_results geocode) as [results | e]; cbn [fst snd];
      try (eexists; unfold step; simpl; rewrite <- app_assoc; reflexivity);
      unfold raise, cache_set, ret;
      destruct (negb (Py.truthy results)); cbn [fst snd];
      try (eexists; unfold step; simpl; rewrite <- app_assoc; reflexivity);
      destruct (Py.getitem0 results) as [top | e]; cbn [fst snd];
      try (eexists; unfold step; simpl; rewrite <- app_assoc; reflexivity);
      destruct (Py.get top "name" JNull) as [nm | e]; cbn [fst snd];
      try (eexists; unfold step; simpl; rewrite <- !app_assoc; reflexivity);
      destruct (Py.get top "latitude" JNull) as [la | e]; cbn [fst snd];
      try (eexists; unfold step; simpl; rewrite <- !app_assoc; reflexivity);
      destruct (Py.get top "longitude" JNull) as [lo | e]; cbn [fst snd];
      try (eexists; unfold step; simpl; rewrite <- !app_assoc; reflexivity);
      destruct (Py.is_none la || Py.is_none lo); cbn [fst snd];
      try (eexists; unfold step; simpl; rewrite <- !app_assoc; reflexivity);
      destruct (Py.float la) as [fla | e]; cbn [fst snd];
      try (eexists; unfold step; simpl; rewrite <- !app_assoc; reflexivity);
      destruct (Py.float lo) as [flo | e]; cbn [fst snd];
      try (eexists; unfold step; simpl; rewrite <- !app_assoc; reflexivity);
      destruct (Py.get top "country" JNull) as [co | e]; cbn [fst snd];
      try (eexists; unfold step; simpl; rewrite <- !app_assoc; reflexivity);
      destruct (Py.get top "admin1" JNull) as [ad | e]; cbn [fst snd];
      eexists; unfold step; simpl; rewrite <- !app_assoc; reflexivity. }
  destruct Hres as (w1 & Hw1 & rest1 & T1).
  destruct (resolve_location q w) as [[loc | e] w1'] eqn:R; cbn [snd] in Hw1; subst w1'.
  - rewrite weather_at_world.
    destruct (load_forecast_trace loc (hourly_list (hourly_vars q)) w1)
      as [T | [T | T]]; rewrite T, T1, <- app_assoc; simpl; eexists; reflexivity.
  - cbn [snd]. rewrite T1. eexists; reflexivity.
Qed.

End MoreFacts.

(** The lookup and the query of a request for the city Atlantis. *)
Lemma geocoding_lookup_witness :
  exists rest,
    trace (snd (@get_weather ascii_runtime (steady (candidates [atlantis]) overcast)
                  (by_city "Atlantis") empty_world))
    = trace empty_world
      ++ CacheGet ("geocode:" +:+ @str_lower ascii_runtime "Atlantis")
         :: HttpGet GEOCODE_URL
              [("name", JStr "Atlantis"); ("count", JInt 1);
               ("language", JStr "en"); ("format", JStr "json")]
         :: rest.
Proof.
  apply (@geocoding_lookup_and_query ascii_runtime
           (steady (candidates [atlantis]) overcast)
           (by_city "Atlantis") "Atlantis" empty_world).
  - reflexivity.
  - reflexivity.
  - left. reflexivity.
  - reflexivity.
Defined.

(** * The autocomplete endpoint and the cache as the handlers share it *)

Lemma geocode_calls_step ev c w :
  geocode_calls (trace (step ev c w))
  = geocode_calls (trace w) + (if is_geocode_call ev then 1 else 0).
Proof.
  unfold geocode_calls, step. simpl.
  rewrite List.filter_app, length_app. simpl.
  now destruct (is_geocode_call ev).
Qed.

(** The loop maps [simplified_entry] over the results, in order. *)
Lemma simplify_loop_objects (rows : list (list (string * json))) : forall acc,
  simplify_loop (List.map JObj rows) acc
  = Ret (acc ++ List.map
                  (fun items =>
                     JObj [("name", default JNull (Py.lookup items "name"));
                           ("country", default JNull (Py.lookup items "country"));
                           ("admin1", default JNull (Py.lookup items "admin1"));
                           ("latitude", default JNull (Py.lookup items "latitude"));
                           ("longitude", default JNull (Py.lookup items "longitude"))])
                  rows).
Proof.
  induction rows as [| items rows IH]; intros acc; simpl.
  - now rewrite app_nil_r.
  - rewrite IH, <- app_assoc. simpl.
    repeat f_equal; now destruct (Py.lookup items _).
Qed.

(** The loop stops at the first result that is not a dictionary. *)
Lemma simplify_loop_raises results : forall acc e,
  simplify_loop results acc = Raise e -> e = AttributeError.
Proof.
  induction results as [| r rest IH]; intros acc e; simpl; [discriminate |].
  destruct r; simpl; try (now intros [= <-]). apply IH.
Qed.

Lemma simplify_geocode_raises geocode e :
  simplify_geocode geocode = Raise e -> e = AttributeError \/ e = TypeError.
Proof.
  unfold simplify_geocode.
  destruct (geocode_results geocode) as [results | e1] eqn:R.
  - destruct (py_iter results) as [items | e2] eqn:I.
    + intros E. left. eapply simplify_loop_raises. exact E.
    + intros [= <-]. right.
      destruct results; simpl in I; congruence.
  - intros [= <-]. left. unfold geocode_results in R.
    destruct (Py.truthy geocode); [| discriminate].
    destruct geocode; simpl in R; congruence.
Qed.

Section AutocompleteFacts.

Context {runtime : PyRuntime} {oracle : Oracle}.

(** After a miss: the upstream call, then a raise with the cache as the
    lookup left it, or the write of the list. *)
Lemma autocomplete_miss query limit w m :
  let key := autocomplete_key query limit in
  let params := autocomplete_params query limit in
  let w2 := step (HttpGet GEOCODE_URL params) m (step (CacheGet key) m w) in
  cache_get key w = (Ret JNull, step (CacheGet key) m w) ->
  autocomplete query limit w
  = match http_get (S (tick w)) GEOCODE_URL params with
    | None => (Raise HTTPError, w2)
    | Some geocode =>
        match simplify_geocode geocode with
        | Raise e => (Raise e, w2)
        | Ret simplified =>
            (Ret (JList simplified),
             step (CacheSet key)
               (<[key := {| value := JList simplified;
                            expires_at := (_now (S (S (tick w)))
                                           + CACHE_TTL_SECONDS)%Z |}]> m) w2)
        end
    end.
Proof.
  intros key params w2 E. unfold autocomplete. fold key params.
  rewrite (bind_ret _ _ _ _ _ E). cbn [negb Py.is_none].
  unfold bind, fetch_json, lift, cache_set, ret. simpl.
  destruct (http_get (S (tick w)) GEOCODE_URL params) as [geocode |];
    [| reflexivity].
  now destruct (simplify_geocode geocode).
Qed.

Lemma autocomplete_hit query limit w entry :
  _cache w !! autocomplete_key query limit = Some entry ->
  (_now (tick w) <= expires_at entry)%Z ->
  value entry <> JNull ->
  autocomplete query limit w
  = (Ret (value entry),
     step (CacheGet (autocomplete_key query limit)) (_cache w) w).
Proof.
  intros E Hle Hv. unfold autocomplete.
  rewrite (bind_ret _ _ _ _ _ (cache_get_fresh _ _ _ E Hle)).
  now destruct (value entry).
Qed.

(** The ways [autocomplete] goes: a hit on a live entry with a value
    other than [None], or a miss. *)
Lemma autocomplete_cases query limit w :
  let key := autocomplete_key query limit in
  (exists entry,
     _cache w !! key = Some entry
     /\ (_now (tick w) <= expires_at entry)%Z
     /\ value entry <> JNull
     /\ autocomplete query limit w
        = (Ret (value entry), step (CacheGet key) (_cache w) w))
  \/ (exists m,
        (m = _cache w \/ m = delete key (_cache w))
        /\ cache_get key w = (Ret JNull, step (CacheGet key) m w)).
Proof.
  intros key.
  destruct (_cache w !! key) as [entry |] eqn:E.
  - destruct (Z.lt_ge_cases (expires_at entry) (_now (tick w))) as [Hlt | Hge].
    + right. exists (delete key (_cache w)).
      split; [now right | exact (cache_get_stale _ _ _ E Hlt)].
    + pose proof (cache_get_fresh _ _ _ E Hge) as G.
      destruct (Py.is_none (value entry)) eqn:Hv.
      * right. exists (_cache w).
        assert (Hnull : value entry = JNull) by (now destruct (value entry)).
        rewrite Hnull in G. split; [now left | exact G].
      * left. exists entry. repeat split; [exact Hge | |].
        -- intros Hnull. rewrite Hnull in Hv. discriminate.
        -- apply autocomplete_hit; [exact E | exact Hge |].
           intros Hnull. rewrite Hnull in Hv. discriminate.
  - right. exists (_cache w).
    split; [now left | exact (cache_get_absent _ _ E)].
Qed.

Lemma autocomplete_tick query limit w :
  tick w < tick (snd (autocomplete query limit w)).
Proof.
  destruct (autocomplete_cases query limit w) as [(entry & _ & _ & _ & E) | (m & _ & G)].
  - rewrite E. simpl. lia.
  - rewrite (autocomplete_miss _ _ _ _ G).
    destruct (http_get _ _ _) as [geocode |]; [| simpl; lia].
    destruct (simplify_geocode geocode); simpl; lia.
Qed.

(** On a miss, with an upstream reply whose [results] is a list of
    dictionaries, [autocomplete] returns one dictionary per result, in
    the order of the reply, each with the five keys [name], [country],
    [admin1], [latitude], [longitude] and [None] for a key the result
    lacks; and it writes this list to the cache with the default TTL. *)
Theorem autocomplete_simplifies query limit w geocode rows :
  fst (cache_get (autocomplete_key query limit) w) = Ret JNull ->
  http_get (S (tick w)) GEOCODE_URL
    [("name", JStr query); ("count", JInt limit);
     ("language", JStr "en"); ("format", JStr "json")] = Some geocode ->
  geocode_results geocode = Ret (JList (List.map JObj rows)) ->
  exists simplified,
    fst (autocomplete query limit w) = Ret (JList simplified)
    /\ length simplified = length rows
    /\ (forall i items,
          rows !! i = Some items ->
          simplified !! i
          = Some (JObj [("name", default JNull (Py.lookup items "name"));
                        ("country", default JNull (Py.lookup items "country"));
                        ("admin1", default JNull (Py.lookup items "admin1"));
                        ("latitude", default JNull (Py.lookup items "latitude"));
                        ("longitude", default JNull (Py.lookup items "longitude"))]))
    /\ _cache (snd (autocomplete query limit w)) !! autocomplete_key query limit
       = Some {| value := JList simplified;
                 expires_at := (_now (S (S (tick w))) + CACHE_TTL_SECONDS)%Z |}.
Proof.
  intros Hmiss Hhttp Hres.
  destruct (cache_get_returns (autocomplete_key query limit) w) as (v & m & G & _).
  rewrite G in Hmiss. cbn [fst] in Hmiss. injection Hmiss as ->.
  rewrite (autocomplete_miss _ _ _ _ G).
  change (autocomplete_params query limit)
    with [("name", JStr query); ("count", JInt limit);
          ("language", JStr "en"); ("format", JStr "json")].
  rewrite Hhttp. unfold simplify_geocode. rewrite Hres. cbn [py_iter].
  rewrite simplify_loop_objects. cbn [app fst snd].
  eexists. split; [reflexivity |]. split; [apply length_map |]. split.
  - intros i items Hi. rewrite list_lookup_fmap, Hi. reflexivity.
  - simpl. apply lookup_insert_eq.
Qed.

(** Whatever [autocomplete] returns is then in the cache under the key of
    the request (an empty list too), and a later call that finds this
    entry, at a second not after its expiry, returns the same value from
    the cache: its only event is the cache read. *)
Theorem autocomplete_result_is_cached query limit w v :
  fst (autocomplete query limit w) = Ret v ->
  exists entry,
    _cache (snd (autocomplete query limit w)) !! autocomplete_key query limit
    = Some entry
    /\ value entry = v
    /\ (forall w',
          _cache w' !! autocomplete_key query limit = Some entry ->
          (_now (tick w') <= expires_at entry)%Z ->
          autocomplete query limit w'
          = (Ret v, step (CacheGet (autocomplete_key query limit)) (_cache w') w')).
Proof.
  intros Hret.
  destruct (autocomplete_cases query limit w)
    as [(entry & E & Hle & Hv & Hrun) | (m & _ & G)].
  - rewrite Hrun in Hret |- *. cbn [fst snd] in *. injection Hret as <-.
    exists entry. split; [exact E |]. split; [reflexivity |].
    intros w' E' Hle'. now apply autocomplete_hit.
  - rewrite (autocomplete_miss _ _ _ _ G) in Hret |- *.
    destruct (http_get _ _ _) as [geocode |]; [| discriminate].
    destruct (simplify_geocode geocode) as [simplified | e]; [| discriminate].
    cbn [fst snd] in *. injection Hret as <-.
    eexists. split; [simpl; apply lookup_insert_eq |]. split; [reflexivity |].
    intros w' E' Hle'.
    now rewrite (autocomplete_hit _ _ _ _ E' Hle').
Qed.

(** When [autocomplete] raises, the exception is the upstream failure or
    Python's [AttributeError] or [TypeError] on a reply of the wrong
    shape, never an [HTTPException]; the handler has stopped after the
    upstream call, so nothing was written: every entry of the cache
    afterwards was there before. *)
Theorem autocomplete_failure_writes_nothing query limit w e :
  fst (autocomplete query limit w) = Raise e ->
  (e = HTTPError \/ e = AttributeError \/ e = TypeError)
  /\ trace (snd (autocomplete query limit w))
     = trace w ++ [CacheGet (autocomplete_key query limit);
                   HttpGet GEOCODE_URL (autocomplete_params query limit)]
  /\ (forall k entry,
        _cache (snd (autocomplete query limit w)) !! k = Some entry ->
        _cache w !! k = Some entry).
Proof.
  intros Hraise.
  destruct (autocomplete_cases query limit w)
    as [(entry & _ & _ & _ & Hrun) | (m & Hm & G)].
  - rewrite Hrun in Hraise. discriminate.
  - rewrite (autocomplete_miss _ _ _ _ G) in Hraise |- *.
    assert (Hcache : forall k entry, m !! k = Some entry -> _cache w !! k = Some entry).
    { intros k entry Hk. destruct Hm as [-> | ->]; [exact Hk |].
      destruct (decide (autocomplete_key query limit = k)) as [<- | Hne].
      - rewrite lookup_delete_eq in Hk. discriminate.
      - now rewrite lookup_delete_ne in Hk. }
    destruct (http_get _ _ _) as [geocode |].
    + destruct (simplify_geocode geocode) as [simplified | e'] eqn:S;
        [discriminate |].
      cbn [fst snd] in *. injection Hraise as ->.
      split; [right; now apply (simplify_geocode_raises geocode) |].
      split; [simpl; now rewrite <- app_assoc | exact Hcache].
    + cbn [fst snd] in *. injection Hraise as <-.
      split; [now left |].
      split; [simpl; now rewrite <- app_assoc | exact Hcache].
Qed.

End AutocompleteFacts.

(** ** What the handlers leave of the cache *)

Lemma prefix_head a s k :
  String.prefix (String a s) k = true -> exists k', k = String a k'.
Proof.
  destruct k as [| b k']; simpl; [discriminate |].
  destruct (ascii_dec a b) as [<- | _]; [eauto | discriminate].
Qed.

Lemma prefix_app p s : String.prefix p (p +:+ s) = true.
Proof.
  induction p as [| a p IH]; simpl; [now destruct s |].
  destruct (ascii_dec a a); [exact IH | congruence].
Qed.

(** The two endpoints have no key in common. *)
Lemma weather_key_not_autocomplete k :
  weather_key k = true -> autocomplete_own_key k = false.
Proof.
  unfold weather_key, autocomplete_own_key. intros Hw.
  apply orb_prop in Hw as [Hw | Hw];
    apply prefix_head in Hw as (k' & ->); reflexivity.
Qed.

Section Frames.

Context {runtime : PyRuntime} {oracle : Oracle}.

Lemma geocode_key_is_weather_key c : weather_key (geocode_key c) = true.
Proof. unfold weather_key, geocode_key. now rewrite prefix_app. Qed.

Lemma forecast_key_is_weather_key loc hl : weather_key (forecast_key loc hl) = true.
Proof.
  unfold weather_key, forecast_key. rewrite (prefix_app "forecast:").
  apply orb_true_r.
Qed.

Lemma autocomplete_key_is_own query limit :
  autocomplete_own_key (autocomplete_key query limit) = true.
Proof. unfold autocomplete_own_key, autocomplete_key. apply prefix_app. Qed.

Lemma handler_frame_refl own w : handler_frame own w w.
Proof.
  unfold handler_frame. repeat split; auto.
  exists []. now rewrite app_nil_r.
Qed.

Lemma handler_frame_trans own w1 w2 w3 :
  handler_frame own w1 w2 -> handler_frame own w2 w3 -> handler_frame own w1 w3.
Proof.
  intros (T1 & O1 & N1 & (t1 & L1)) (T2 & O2 & N2 & (t2 & L2)).
  split; [lia |]. split; [| split].
  - intros k Hk. rewrite O2, O1; auto.
  - intros k e Hk. destruct (N2 k e Hk) as [Hold | (n & Hn & He)].
    + destruct (N1 k e Hold) as [Hold1 | (n & Hn & He)]; [now left |].
      right. exists n. split; [lia | exact He].
    + right. exists n. split; [lia | exact He].
  - exists (t1 ++ t2). now rewrite L2, L1, app_assoc.
Qed.

Lemma cache_get_frame own k :
  own k = true -> keeps (handler_frame own) (cache_get k).
Proof.
  intros Hown w. destruct (cache_get_returns k w) as (v & m & E & Hm).
  rewrite E. cbn [snd]. split; [simpl; lia |]. split; [| split].
  - intros k' Hk'. simpl. destruct Hm as [-> | ->]; [reflexivity |].
    apply lookup_delete_ne. intros <-. congruence.
  - intros k' e Hk'. left. simpl in Hk'. destruct Hm as [-> | ->]; [exact Hk' |].
    destruct (decide (k = k')) as [<- | Hne].
    + rewrite lookup_delete_eq in Hk'. discriminate.
    + now rewrite lookup_delete_ne in Hk'.
  - eexists. reflexivity.
Qed.

Lemma cache_set_frame own k v :
  own k = true -> keeps (handler_frame own) (cache_set k v CACHE_TTL_SECONDS).
Proof.
  intros Hown w. unfold cache_set. cbn [snd].
  split; [simpl; lia |]. split; [| split].
  - intros k' Hk'. simpl. apply lookup_insert_ne. intros <-. congruence.
  - intros k' e Hk'. simpl in Hk'.
    destruct (decide (k = k')) as [<- | Hne].
    + rewrite lookup_insert_eq in Hk'. injection Hk' as <-.
      right. exists (tick w). simpl. split; [lia | reflexivity].
    + rewrite lookup_insert_ne in Hk' by exact Hne. now left.
  - eexists. reflexivity.
Qed.

Lemma fetch_json_frame own url params :
  keeps (handler_frame own) (fetch_json url params).
Proof.
  intros w. unfold fetch_json. cbn [snd].
  split; [simpl; lia |]. split; [| split].
  - reflexivity.
  - intros k e Hk. now left.
  - eexists. reflexivity.
Qed.

Lemma lift_frame {A} own (o : outcome A) : keeps (handler_frame own) (lift o).
Proof. intros w. apply handler_frame_refl. Qed.

Local Ltac own_key :=
  first [ apply geocode_key_is_weather_key
        | apply forecast_key_is_weather_key
        | apply autocomplete_key_is_own ].

Local Ltac handler_step :=
  match goal with
  | |- keeps _ (bind _ _) =>
      apply keeps_bind; [exact (handler_frame_trans _) | | intros ?]
  | |- keeps _ (ret _) => intros ?; apply handler_frame_refl
  | |- keeps _ (raise _) => intros ?; apply handler_frame_refl
  | |- keeps _ (lift _) => apply lift_frame
  | |- keeps _ (cache_get _) => apply cache_get_frame; own_key
  | |- keeps _ (cache_set _ _ _) => apply cache_set_frame; own_key
  | |- keeps _ (fetch_json _ _) => apply fetch_json_frame
  | |- keeps _ (if ?b then _ else _) => destruct b
  end.

Lemma resolve_location_handler_frame q :
  keeps (handler_frame weather_key) (resolve_location q).
Proof.
  unfold resolve_location.
  destruct (lat q), (lon q); repeat handler_step.
Qed.

Lemma weather_at_handler_frame loc hl :
  keeps (handler_frame weather_key) (weather_at loc hl).
Proof. unfold weather_at, load_forecast. repeat handler_step. Qed.

Lemma get_weather_handler_frame q :
  keeps (handler_frame weather_key) (get_weather q).
Proof.
  unfold get_weather. destruct (_ && _); repeat handler_step.
  - apply resolve_location_handler_frame.
  - apply weather_at_handler_frame.
Qed.

Lemma autocomplete_handler_frame query limit :
  keeps (handler_frame autocomplete_own_key) (autocomplete query limit).
Proof. unfold autocomplete. repeat handler_step. Qed.

(** Each endpoint keeps to its own keys. A weather request leaves every
    entry whose key starts neither with ["geocode:"] nor with
    ["forecast:"] as it was, an autocomplete request every entry whose
    key does not start with ["autocomplete:"], and no key is of both
    kinds. Every entry a request adds expires [CACHE_TTL_SECONDS] after
    a clock reading taken during the request; the event log only grows. *)
Theorem handlers_keep_to_their_keys :
  (forall q w, handler_frame weather_key w (snd (get_weather q w)))
  /\ (forall query limit w,
        handler_frame autocomplete_own_key w (snd (autocomplete query limit w)))
  /\ (forall k, weather_key k = true -> autocomplete_own_key k = false)
  /\ (forall c loc hl query limit,
        weather_key (geocode_key c) = true
        /\ weather_key (forecast_key loc hl) = true
        /\ autocomplete_own_key (autocomplete_key query limit) = true).
Proof.
  split; [exact get_weather_handler_frame |].
  split; [exact autocomplete_handler_frame |].
  split; [exact weather_key_not_autocomplete |].
  intros. split; [apply geocode_key_is_weather_key |].
  split; [apply forecast_key_is_weather_key | apply autocomplete_key_is_own].
Qed.

(** In a world whose entries under autocomplete keys are lists,
    [autocomplete] returns a list whenever it returns, and both handlers
    leave such a world. *)
Theorem autocomplete_returns_a_list w :
  autocomplete_entries_are_lists w ->
  (forall query limit v,
     fst (autocomplete query limit w) = Ret v -> is_list v = true)
  /\ (forall query limit,
        autocomplete_entries_are_lists (snd (autocomplete query limit w)))
  /\ (forall q, autocomplete_entries_are_lists (snd (get_weather q w))).
Proof.
  intros Hinv. split; [| split].
  - intros query limit v Hret.
    destruct (autocomplete_cases query limit w)
      as [(entry & E & _ & _ & Hrun) | (m & _ & G)].
    + rewrite Hrun in Hret. cbn [fst] in Hret. injection Hret as <-.
      eapply Hinv; [apply autocomplete_key_is_own | exact E].
    + rewrite (autocomplete_miss _ _ _ _ G) in Hret.
      destruct (http_get _ _ _) as [geocode |]; [| discriminate].
      destruct (simplify_geocode geocode); [| discriminate].
      cbn [fst] in Hret. now injection Hret as <-.
  - intros query limit k e Hk Hlook.
    destruct (autocomplete_cases query limit w)
      as [(entry & E & _ & _ & Hrun) | (m & Hm & G)].
    + rewrite Hrun in Hlook. simpl in Hlook. eauto.
    + assert (Hsub : forall e', m !! k = Some e' -> is_list (value e') = true).
      { intros e' Hk'. apply (Hinv k e' Hk).
        destruct Hm as [-> | ->]; [exact Hk' |].
        destruct (decide (autocomplete_key query limit = k)) as [<- | Hne].
        - rewrite lookup_delete_eq in Hk'. discriminate.
        - now rewrite lookup_delete_ne in Hk'. }
      rewrite (autocomplete_miss _ _ _ _ G) in Hlook.
      destruct (http_get _ _ _) as [geocode |]; [| simpl in Hlook; eauto].
      destruct (simplify_geocode geocode); [| simpl in Hlook; eauto].
      simpl in Hlook.
      destruct (decide (autocomplete_key query limit = k)) as [<- | Hne].
      * rewrite lookup_insert_eq in Hlook. now injection Hlook as <-.
      * rewrite lookup_insert_ne in Hlook by exact Hne. eauto.
  - intros q k e Hk Hlook.
    destruct (get_weather_handler_frame q w) as (_ & Hother & _).
    rewrite Hother in Hlook; [eauto |].
    destruct (weather_key k) eqn:Hw; [| reflexivity].
    apply weather_key_not_autocomplete in Hw. congruence.
Qed.

End Frames.

(** ** The error responses of the weather endpoint *)

Lemma raises_within_bind {A B} (P : exn -> Prop) (m : M A) (k : A -> M B) :
  raises_within P m -> (forall a, raises_within P (k a)) ->
  raises_within P (bind m k).
Proof.
  intros Hm Hk w. unfold bind. specialize (Hm w).
  destruct (m w) as [[a | e] w']; simpl in *; [apply Hk | exact Hm].
Qed.

Lemma raises_within_bind_ret {A B} (P : exn -> Prop) (a : A) (k : A -> M B) :
  raises_within P (k a) -> raises_within P (bind (lift (Ret a)) k).
Proof. intros Hk w. exact (Hk w). Qed.

Lemma get_python d k v : python_outcome (Py.get d k v).
Proof. now destruct d. Qed.

Lemma getitem0_python v : python_outcome (Py.getitem0 v).
Proof.
  destruct v as [| | | | s | [|] |]; simpl; auto.
  now destruct (PyStr.head_char s).
Qed.

Lemma float_python `{PyRuntime} v : python_outcome (Py.float v).
Proof.
  destruct v as [| b | n | x | s | |]; simpl; auto.
  - now destruct (PyFloat.of_int n).
  - now destruct (float_of_str s).
Qed.

Lemma geocode_results_python g : python_outcome (geocode_results g).
Proof.
  unfold geocode_results. destruct (Py.truthy g); [apply get_python | exact I].
Qed.

Lemma annotate_python `{PyRuntime} c : python_outcome (annotate c).
Proof.
  unfold annotate. destruct c; simpl; auto.
  destruct (Py.lookup items "weathercode") as [[]|]; simpl; auto.
Qed.

Section WeatherErrors.

Context {runtime : PyRuntime} {oracle : Oracle}.

Lemma raises_within_lift {A} q (o : outcome A) :
  python_outcome o -> raises_within (weather_error q) (lift o).
Proof. intros Ho w. simpl. destruct o as [a | []]; simpl in *; auto; contradiction. Qed.

Lemma cache_get_raises_within P k : raises_within P (cache_get k).
Proof.
  intros w. destruct (cache_get_returns k w) as (v & m & E & _). now rewrite E.
Qed.

Lemma cache_set_raises_within P k v ttl : raises_within P (cache_set k v ttl).
Proof. intros w. exact I. Qed.

Lemma fetch_json_raises_within q url params :
  raises_within (weather_error q) (fetch_json url params).
Proof. intros w. unfold fetch_json. simpl. now destruct (http_get _ _ _). Qed.

Local Ltac error_step q :=
  match goal with
  | |- raises_within _ (bind (lift (Ret _)) _) => apply raises_within_bind_ret
  | |- raises_within _ (bind (lift (Raise AttributeError)) _) =>
      intros ?; exact I
  | |- raises_within _ (bind _ _) => apply raises_within_bind; [| intros ?]
  | |- raises_within _ (ret _) => intros ?; exact I
  | |- raises_within _ (cache_get _) => apply cache_get_raises_within
  | |- raises_within _ (cache_set _ _ _) => apply cache_set_raises_within
  | |- raises_within _ (fetch_json _ _) => apply fetch_json_raises_within
  | |- raises_within _ (lift (Py.get _ _ _)) =>
      apply raises_within_lift, get_python
  | |- raises_within _ (lift (Py.getitem0 _)) =>
      apply raises_within_lift, getitem0_python
  | |- raises_within _ (lift (Py.float _)) =>
      apply raises_within_lift, float_python
  | |- raises_within _ (lift (geocode_results _)) =>
      apply raises_within_lift, geocode_results_python
  | |- raises_within _ (lift (annotate _)) =>
      apply raises_within_lift, annotate_python
  | |- raises_within _ (lift (Raise AttributeError)) => intros ?; exact I
  | |- raises_within _ (if ?b then _ else _) => destruct b
  end.

Lemma resolve_location_errors q :
  raises_within (weather_error q) (resolve_location q).
Proof.
  unfold resolve_location.
  destruct (city q) as [c |] eqn:Hcity;
    destruct (lat q), (lon q);
    repeat (error_step q);
    intros w; simpl; auto;
    try (right; left; split;
         [reflexivity | exists c; split; [exact Hcity | reflexivity]]).
Qed.

Lemma weather_at_errors q loc hl :
  raises_within (weather_error q) (weather_at loc hl).
Proof.
  unfold weather_at, load_forecast. repeat (error_step q).
  intros w. simpl. auto.
Qed.

(** Whatever [get_weather] raises as an [HTTPException] is one of four
    responses: 400 for the missing input, 404 naming the city of the
    request, and 502 with one of the two upstream-contract messages. *)
Theorem weather_errors_are_known q w e :
  fst (get_weather q w) = Raise e -> weather_error q e.
Proof.
  intros Hraise.
  assert (N : raises_within (weather_error q) (get_weather q)).
  { unfold get_weather. destruct (_ && _).
    - intros w'. simpl. auto.
    - apply raises_within_bind;
        [apply resolve_location_errors | intros; apply weather_at_errors]. }
  specialize (N w). now rewrite Hraise in N.
Qed.

(** A request by city whose candidate is in the cache, live, with float
    coordinates, resolves from the cache alone: the location is built
    from the cached candidate, named after the candidate, or after the
    city of the request when the candidate has no name, and the only
    event is the cache read. *)
Theorem cached_candidate_skips_geocoding q c w entry items la lo :
  city q = Some c ->
  PyStr.truthy c = true ->
  lat q = None \/ lon q = None ->
  _cache w !! geocode_key c = Some entry ->
  (_now (tick w) <= expires_at entry)%Z ->
  value entry = JObj items ->
  Py.lookup items "latitude" = Some (JFloat la) ->
  Py.lookup items "longitude" = Some (JFloat lo) ->
  resolve_location q w
  = (Ret {| name := if Py.truthy (default JNull (Py.lookup items "name"))
                    then default JNull (Py.lookup items "name") else JStr c;
            latitude := la;
            longitude := lo;
            country := default JNull (Py.lookup items "country");
            admin1 := default JNull (Py.lookup items "admin1") |},
     step (CacheGet (geocode_key c)) (_cache w) w).
Proof.
  intros Hcity Hc Hpair E Hle Hv Hla Hlo.
  pose proof (cache_get_fresh _ _ _ E Hle) as G. rewrite Hv in G.
  unfold resolve_location. rewrite Hcity.
  destruct (lat q), (lon q); [destruct Hpair; discriminate | | |];
    unfold bind, lift, ret; rewrite G; simpl; rewrite Hla, Hlo; simpl;
    (destruct (Py.lookup items "name"), (Py.lookup items "country"),
       (Py.lookup items "admin1"); reflexivity).
Qed.

End WeatherErrors.

(** ** Splitting, joining and stripping *)

Lemma lacks_app c s t : lacks c (s +:+ t) = lacks c s && lacks c t.
Proof.
  induction s as [| a s IH]; simpl; [reflexivity |].
  rewrite IH. now rewrite andb_assoc.
Qed.

Lemma app_cons a s t : String a s +:+ t = String a (s +:+ t).
Proof. reflexivity. Qed.

Lemma app_nil_l t : "" +:+ t = t.
Proof. reflexivity. Qed.

Lemma string_app_nil_r s : s +:+ "" = s.
Proof.
  induction s as [| a s IH]; [reflexivity |]. now rewrite app_cons, IH.
Qed.

Lemma string_app_assoc s t u : (s +:+ t) +:+ u = s +:+ t +:+ u.
Proof.
  induction s as [| a s IH]; [reflexivity |]. now rewrite !app_cons, IH.
Qed.

Lemma rev_app_spec s : forall t, String.rev_app s t = String.rev s +:+ t.
Proof.
  unfold String.rev.
  induction s as [| a s IH]; intros t; cbn [String.rev_app]; [reflexivity |].
  rewrite (IH (String a t)), (IH (String a "")).
  now rewrite string_app_assoc.
Qed.

Lemma rev_cons a s : String.rev (String a s) = String.rev s +:+ String a "".
Proof. unfold String.rev at 1. cbn [String.rev_app]. apply rev_app_spec. Qed.

Lemma rev_app_distr s t : String.rev (s +:+ t) = String.rev t +:+ String.rev s.
Proof.
  induction s as [| a s IH].
  - rewrite app_nil_l. change (String.rev "") with "".
    now rewrite string_app_nil_r.
  - now rewrite app_cons, !rev_cons, IH, string_app_assoc.
Qed.

Lemma rev_involutive s : String.rev (String.rev s) = s.
Proof.
  induction s as [| a s IH]; [reflexivity |].
  now rewrite rev_cons, rev_app_distr, IH.
Qed.

Lemma lacks_rev c s : lacks c (String.rev s) = lacks c s.
Proof.
  induction s as [| a s IH]; [reflexivity |].
  rewrite rev_cons, lacks_app, IH. simpl.
  rewrite andb_true_r. apply andb_comm.
Qed.

(** One round of [drop_space]: nothing to drop, or a character is
    dropped and the rest is dealt with. *)
Lemma drop_space_round back s :
  (leading_space back s = false /\ PyStr.drop_space back s = s)
  \/ (exists p r, p <> "" /\ s = p +:+ r
                  /\ PyStr.drop_space back s = PyStr.drop_space back r).
Proof.
  destruct s as [| a r1]; [left; split; reflexivity |].
  destruct (PyStr.ascii_space a) eqn:Ha.
  { right. exists (String a ""), r1. split; [discriminate |].
    split; [reflexivity |]. cbn [PyStr.drop_space]. now rewrite Ha. }
  destruct r1 as [| b r2].
  { left. cbn [leading_space PyStr.drop_space]. rewrite Ha. split; reflexivity. }
  destruct (if back then PyStr.space2 b a else PyStr.space2 a b) eqn:H2.
  { right. exists (String a (String b "")), r2. split; [discriminate |].
    split; [reflexivity |]. cbn [PyStr.drop_space]. now rewrite Ha, H2. }
  destruct r2 as [| c r3].
  { left. cbn [leading_space PyStr.drop_space]. rewrite Ha, H2. split; reflexivity. }
  destruct (if back then PyStr.space3 c b a else PyStr.space3 a b c) eqn:H3.
  - right. exists (String a (String b (String c ""))), r3. split; [discriminate |].
    split; [reflexivity |]. cbn [PyStr.drop_space]. now rewrite Ha, H2, H3.
  - left. cbn [leading_space PyStr.drop_space]. rewrite Ha, H2, H3.
    split; reflexivity.
Qed.

(** [drop_space] returns a suffix with nothing left to drop. *)
Lemma drop_space_suffix back n : forall s,
  String.length s <= n ->
  (exists p, s = p +:+ PyStr.drop_space back s)
  /\ leading_space back (PyStr.drop_space back s) = false.
Proof.
  induction n as [| n IH]; intros s Hlen;
    destruct (drop_space_round back s) as [(Hl & E) | (p & r & Hp & Hs & E)].
  - rewrite E. split; [now exists "" | exact Hl].
  - exfalso. subst s. rewrite string_length_app in Hlen.
    destruct p; [congruence | simpl in Hlen; lia].
  - rewrite E. split; [now exists "" | exact Hl].
  - assert (Hr : String.length r <= n).
    { subst s. rewrite string_length_app in Hlen.
      destruct p; [congruence | simpl in Hlen; lia]. }
    destruct (IH r Hr) as ((p' & Hp') & Hl). rewrite E.
    split; [| exact Hl]. exists (p +:+ p').
    now rewrite string_app_assoc, <- Hp'.
Qed.

Lemma drop_space_fixed back s :
  leading_space back s = false -> PyStr.drop_space back s = s.
Proof.
  destruct s as [| a r1]; [reflexivity |].
  cbn [leading_space]. intros Hl. apply orb_false_elim in Hl as [Ha Hl].
  destruct r1 as [| b r2].
  { cbn [PyStr.drop_space]. now rewrite Ha. }
  apply orb_false_elim in Hl as [H2 Hl].
  destruct r2 as [| c r3].
  { cbn [PyStr.drop_space]. now rewrite Ha, H2. }
  cbn [PyStr.drop_space]. now rewrite Ha, H2, Hl.
Qed.

Lemma leading_space_prefix t z :
  leading_space false (t +:+ z) = false -> leading_space false t = false.
Proof.
  destruct t as [| a [| b [| c r]]]; [reflexivity | | |].
  - simpl. destruct z; cbn [leading_space]; intros Hl;
      apply orb_false_elim in Hl as [-> _]; reflexivity.
  - simpl. destruct z; cbn [leading_space]; intros Hl;
      apply orb_false_elim in Hl as [-> Hl]; [exact Hl |].
    apply orb_false_elim in Hl as [-> _]. reflexivity.
  - simpl. cbn [leading_space]. auto.
Qed.

Lemma strip_lacks c s : lacks c s = true -> lacks c (PyStr.strip s) = true.
Proof.
  assert (Hdrop : forall back u, lacks c u = true ->
                    lacks c (PyStr.drop_space back u) = true).
  { intros back u Hu.
    destruct (drop_space_suffix back (String.length u) u (le_n _)) as ((p & Hp) & _).
    rewrite Hp, lacks_app in Hu. now apply andb_prop in Hu as [_ Hu]. }
  intros Hs. unfold PyStr.strip, PyStr.rstrip, PyStr.lstrip.
  rewrite lacks_rev. apply Hdrop. rewrite lacks_rev. now apply Hdrop.
Qed.

(** Stripping twice is stripping once. *)
Lemma strip_idempotent s : PyStr.strip (PyStr.strip s) = PyStr.strip s.
Proof.
  unfold PyStr.strip, PyStr.rstrip, PyStr.lstrip.
  set (u := PyStr.drop_space false s).
  set (x := PyStr.drop_space true (String.rev u)).
  destruct (drop_space_suffix false (String.length s) s (le_n _)) as (_ & Hu).
  fold u in Hu.
  destruct (drop_space_suffix true (String.length (String.rev u)) (String.rev u)
              (le_n _)) as ((p & Hp) & Hx).
  fold x in Hp, Hx.
  assert (Hpre : u = String.rev x +:+ String.rev p).
  { rewrite <- rev_app_distr, <- Hp. now rewrite rev_involutive. }
  assert (Hfront : PyStr.drop_space false (String.rev x) = String.rev x).
  { apply drop_space_fixed. apply (leading_space_prefix _ (String.rev p)).
    now rewrite <- Hpre. }
  rewrite Hfront, rev_involutive.
  now rewrite (drop_space_fixed true x Hx).
Qed.

Lemma split_pieces_lack sep s :
  forall x, In x (PyStr.split sep s) -> lacks sep x = true.
Proof.
  induction s as [| a s IH]; simpl.
  - intros x [<- | []]. reflexivity.
  - destruct (Ascii.eqb a sep) eqn:Ha.
    + intros x [<- | Hx]; [reflexivity | now apply IH].
    + destruct (PyStr.split sep s) as [| h t].
      * intros x [<- | []]. simpl. now rewrite Ha.
      * intros x [<- | Hx].
        -- simpl. rewrite Ha. simpl. apply IH. now left.
        -- apply IH. now right.
Qed.

Lemma split_lacking sep x :
  lacks sep x = true -> PyStr.split sep x = [x].
Proof.
  induction x as [| a x IH]; simpl; [reflexivity |].
  intros Hx. apply andb_prop in Hx as [Ha Hx].
  apply negb_true_iff in Ha. rewrite Ha, (IH Hx). reflexivity.
Qed.

Lemma split_app_sep sep x rest :
  lacks sep x = true ->
  PyStr.split sep (x +:+ String sep rest) = x :: PyStr.split sep rest.
Proof.
  induction x as [| a x IH]; simpl.
  - intros _. now rewrite Ascii.eqb_refl.
  - intros Hx. apply andb_prop in Hx as [Ha Hx].
    apply negb_true_iff in Ha. rewrite Ha, (IH Hx). reflexivity.
Qed.

(** Splitting what was joined gives the list back. *)
Lemma split_join sep l :
  l <> [] -> (forall x, In x l -> lacks sep x = true) ->
  PyStr.split sep (PyStr.join (String sep "") l) = l.
Proof.
  induction l as [| x l IH]; [congruence |]. intros _ Hall.
  destruct l as [| y l].
  - simpl. apply split_lacking. apply Hall. now left.
  - change (PyStr.join (String sep "") (x :: y :: l))
      with (x +:+ String sep "" +:+ PyStr.join (String sep "") (y :: l)).
    change (String sep "" +:+ PyStr.join (String sep "") (y :: l))
      with (String sep (PyStr.join (String sep "") (y :: l))).
    rewrite split_app_sep by (apply Hall; now left).
    f_equal. apply IH; [congruence |]. intros z Hz. apply Hall. now right.
Qed.

Lemma split_not_nil sep s : PyStr.split sep s <> [].
Proof.
  destruct s as [| a s]; simpl; [discriminate |].
  destruct (Ascii.eqb a sep); [discriminate |].
  destruct (PyStr.split sep s); discriminate.
Qed.

(** Joining what was split gives the text back. *)
Lemma join_split sep s :
  PyStr.join (String sep "") (PyStr.split sep s) = s.
Proof.
  induction s as [| a s IH]; [reflexivity |]. simpl.
  pose proof (split_not_nil sep s) as Hne.
  destruct (PyStr.split sep s) as [| h t]; [congruence |].
  destruct (Ascii.eqb a sep) eqn:Ha.
  - apply Ascii.eqb_eq in Ha as ->.
    change (PyStr.join (String sep "") ("" :: h :: t))
      with (String sep (PyStr.join (String sep "") (h :: t))).
    now rewrite IH.
  - destruct t as [| h' t].
    + simpl in *. now rewrite IH.
    + change (PyStr.join (String sep "") (String a h :: h' :: t))
        with (String a (PyStr.join (String sep "") (h :: h' :: t))).
      now rewrite IH.
Qed.

(** What is before the first [c], and what is after it. *)
Lemma cut_at_first c x x' r r' :
  lacks c x = true -> lacks c x' = true ->
  x +:+ String c r = x' +:+ String c r' -> x = x' /\ r = r'.
Proof.
  revert x'. induction x as [| a x IH]; intros [| a' x'] Hx Hx' E.
  - rewrite !app_nil_l in E. now injection E as ->.
  - rewrite app_nil_l, app_cons in E. injection E as <- _.
    simpl in Hx'. now rewrite Ascii.eqb_refl in Hx'.
  - rewrite app_nil_l, app_cons in E. injection E as -> _.
    simpl in Hx. now rewrite Ascii.eqb_refl in Hx.
  - rewrite !app_cons in E. injection E as <- E.
    simpl in Hx, Hx'. apply andb_prop in Hx as [_ Hx].
    apply andb_prop in Hx' as [_ Hx'].
    destruct (IH x' Hx Hx' E) as [-> ->]. split; reflexivity.
Qed.

(** What is before the last [c], and what is after it. *)
Lemma cut_at_last c a a' p p' :
  lacks c p = true -> lacks c p' = true ->
  a +:+ String c p = a' +:+ String c p' -> a = a' /\ p = p'.
Proof.
  revert a'. induction a as [| x a IH]; intros [| x' a'] Hp Hp' E.
  - rewrite !app_nil_l in E. now injection E as ->.
  - rewrite app_nil_l, app_cons in E. injection E as _ ->.
    rewrite lacks_app in Hp. simpl in Hp. rewrite Ascii.eqb_refl in Hp.
    simpl in Hp. now rewrite andb_false_r in Hp.
  - rewrite app_nil_l, app_cons in E. injection E as _ <-.
    rewrite lacks_app in Hp'. simpl in Hp'. rewrite Ascii.eqb_refl in Hp'.
    simpl in Hp'. now rewrite andb_false_r in Hp'.
  - rewrite !app_cons in E. injection E as <- E.
    destruct (IH a' Hp Hp' E) as [-> ->]. split; reflexivity.
Qed.

Lemma pretty_N_char_not c :
  c = ","%char \/ c = ":"%char ->
  forall k, Ascii.eqb (pretty_N_char k) c = false.
Proof.
  intros [-> | ->] k; unfold pretty_N_char; repeat case_match; reflexivity.
Qed.

Lemma pretty_N_go_lacks c :
  c = ","%char \/ c = ":"%char ->
  forall x s, lacks c s = true -> lacks c (pretty_N_go x s) = true.
Proof.
  intros Hc x. induction (N.lt_wf_0 x) as [x _ IH]. intros s Hs.
  assert (x = 0 \/ 0 < x)%N as [-> | Hpos] by lia.
  - now rewrite pretty_N_go_0.
  - rewrite pretty_N_go_step by exact Hpos.
    apply IH; [now apply N.div_lt |].
    simpl. now rewrite (pretty_N_char_not c Hc), Hs.
Qed.

Lemma pretty_Z_lacks c (z : Z) :
  c = ","%char \/ c = ":"%char -> lacks c (pretty z) = true.
Proof.
  intros Hc.
  assert (HN : forall p, lacks c (pretty (N.pos p)) = true).
  { intros p. unfold pretty, pretty_N.
    destruct (decide (N.pos p = 0%N)); [discriminate |].
    now apply pretty_N_go_lacks. }
  destruct z as [| p | p].
  - destruct Hc as [-> | ->]; reflexivity.
  - apply HN.
  - change (pretty (Z.neg p)) with ("-" +:+ pretty (N.pos p)).
    rewrite lacks_app, (HN p). destruct Hc as [-> | ->]; reflexivity.
Qed.

Lemma digit_not c n :
  c = ","%char \/ c = ":"%char -> Ascii.eqb (PyFloat.digit n) c = false.
Proof.
  intros Hc. unfold PyFloat.digit.
  pose proof (Z.mod_pos_bound n 10 ltac:(lia)) as Hb.
  assert (Hk : (Z.to_N (n mod 10) < 10)%N) by lia.
  set (k := Z.to_N (n mod 10)) in *.
  assert (k = 0 \/ k = 1 \/ k = 2 \/ k = 3 \/ k = 4 \/ k = 5 \/ k = 6
          \/ k = 7 \/ k = 8 \/ k = 9)%N as Hcases by lia.
  destruct Hc as [-> | ->];
    decompose [or] Hcases; subst k;
    match goal with H : _ = _ |- _ => rewrite H end; reflexivity.
Qed.

Lemma fixed_digits_lacks c d :
  c = ","%char \/ c = ":"%char ->
  forall n, lacks c (PyFloat.fixed_digits d n) = true.
Proof.
  intros Hc. induction d as [| d IH]; intros n; simpl; [reflexivity |].
  rewrite lacks_app, IH. simpl. now rewrite (digit_not c n Hc).
Qed.

(** A printed coordinate has neither a comma nor a colon. *)
Lemma format_f_lacks c d x :
  c = ","%char \/ c = ":"%char -> lacks c (PyFloat.format_f d x) = true.
Proof.
  intros Hc.
  assert (Hsign : forall s, lacks c (PyFloat.sign_str s) = true)
    by (intros []; destruct Hc as [-> | ->]; reflexivity).
  assert (Hpoint : forall n, lacks c (PyFloat.fixed_point d n) = true).
  { intros n. unfold PyFloat.fixed_point.
    rewrite lacks_app, (pretty_Z_lacks c _ Hc).
    destruct d; [reflexivity |].
    rewrite lacks_app, (fixed_digits_lacks c _ Hc).
    destruct Hc as [-> | ->]; reflexivity. }
  destruct x as [s | s | | s m e]; unfold PyFloat.format_f.
  - now rewrite lacks_app, Hsign, Hpoint.
  - rewrite lacks_app, Hsign. destruct Hc as [-> | ->]; reflexivity.
  - destruct Hc as [-> | ->]; reflexivity.
  - now rewrite lacks_app, Hsign, Hpoint.
Qed.

Lemma join_not_empty sep x l :
  x <> "" -> PyStr.join sep (x :: l) <> "".
Proof.
  intros Hx. destruct x as [| a x]; [congruence |].
  destruct l; simpl; [discriminate |]. rewrite app_cons. discriminate.
Qed.

(** The entries of the requested variables: stripped, not empty, no
    comma. *)
Lemma hourly_list_entries hv v :
  In v (hourly_list hv) ->
  v <> "" /\ lacks "," v = true /\ PyStr.strip v = v.
Proof.
  unfold hourly_list. rewrite map_filter_comm.
  intros Hin. apply List.filter_In in Hin as [Hin Hv].
  apply List.in_map_iff in Hin as (u & <- & Hu).
  split; [| split].
  - intros E. now rewrite E in Hv.
  - apply strip_lacks. eapply split_pieces_lack. exact Hu.
  - apply strip_idempotent.
Qed.

Lemma strip_filter_fixed l :
  (forall v, In v l -> v <> "" /\ PyStr.strip v = v) ->
  List.map PyStr.strip (List.filter (fun v => PyStr.truthy (PyStr.strip v)) l) = l.
Proof.
  induction l as [| v l IH]; intros Hall; [reflexivity |].
  destruct (Hall v ltac:(now left)) as [Hne Hfix].
  cbn [List.filter]. rewrite Hfix.
  destruct v as [| a v]; [congruence |]. cbn [PyStr.truthy List.map].
  rewrite Hfix, IH; [reflexivity |]. intros u Hu. apply Hall. now right.
Qed.

(** Joined by commas, a non-empty list of requested variables splits
    back into itself. *)
Lemma hourly_list_split_join hv :
  hourly_list hv <> [] ->
  PyStr.split "," (PyStr.join "," (hourly_list hv)) = hourly_list hv.
Proof.
  intros Hne. apply split_join; [exact Hne |].
  intros v Hv. now apply hourly_list_entries in Hv.
Qed.

(** Joined by commas, the requested variables split back into themselves:
    each entry is stripped, not empty and without a comma, so the
    [hourly] parameter sent upstream reads as the same list, and parsing
    the joined form again changes nothing. *)
Theorem requested_variables_round_trip hv :
  (forall v, In v (hourly_list hv) ->
     v <> "" /\ lacks "," v = true /\ PyStr.strip v = v)
  /\ (hourly_list hv <> [] ->
      PyStr.split "," (PyStr.join "," (hourly_list hv)) = hourly_list hv)
  /\ hourly_list (Some (PyStr.join "," (hourly_list hv))) = hourly_list hv.
Proof.
  split; [apply hourly_list_entries |].
  split; [apply hourly_list_split_join |].
  pose proof (hourly_list_split_join hv) as Hsplit.
  pose proof (hourly_list_entries hv) as Hall.
  destruct (hourly_list hv) as [| x l]; [reflexivity |].
  unfold hourly_list at 1.
  assert (Htext : (if PyStr.truthy (PyStr.join "," (x :: l))
                   then PyStr.join "," (x :: l) else "")
                  = PyStr.join "," (x :: l))
    by (now destruct (PyStr.join "," (x :: l))).
  rewrite Htext, Hsplit by discriminate.
  apply strip_filter_fixed. intros v Hv.
  apply Hall in Hv. tauto.
Qed.

Section Keys.

Context {runtime : PyRuntime}.

(** Two requests have the same forecast key exactly when their
    coordinates print alike with four decimals and their requested
    variables are the same list. *)
Theorem forecast_keys_agree_iff loc1 loc2 hv1 hv2 :
  forecast_key loc1 (hourly_list hv1) = forecast_key loc2 (hourly_list hv2)
  <-> (PyFloat.format_f 4 (latitude loc1) = PyFloat.format_f 4 (latitude loc2)
       /\ PyFloat.format_f 4 (longitude loc1) = PyFloat.format_f 4 (longitude loc2)
       /\ hourly_list hv1 = hourly_list hv2).
Proof.
  split.
  - unfold forecast_key. intros E.
    apply (inj (String.app "forecast:")) in E.
    change ("," +:+ ?s) with (String "," s) in E.
    apply cut_at_first in E as [Hlat E];
      try (apply format_f_lacks; now left).
    change (":" +:+ ?s) with (String ":" s) in E.
    apply cut_at_first in E as [Hlon E];
      try (apply format_f_lacks; now right).
    split; [exact Hlat |]. split; [exact Hlon |].
    pose proof (hourly_list_split_join hv1) as Hs1.
    pose proof (hourly_list_split_join hv2) as Hs2.
    pose proof (hourly_list_entries hv1) as Ha1.
    pose proof (hourly_list_entries hv2) as Ha2.
    destruct (hourly_list hv1) as [| x1 l1], (hourly_list hv2) as [| x2 l2].
    + reflexivity.
    + exfalso. symmetry in E. revert E. apply join_not_empty.
      exact (proj1 (Ha2 x2 ltac:(now left))).
    + exfalso. revert E. apply join_not_empty.
      exact (proj1 (Ha1 x1 ltac:(now left))).
    + rewrite <- Hs1, <- Hs2 by discriminate. now rewrite E.
  - intros (Hlat & Hlon & Hl). unfold forecast_key. now rewrite Hlat, Hlon, Hl.
Qed.

(** Two completion requests have the same cache key exactly when their
    queries are equal once lower-cased and their limits are equal. *)
Theorem autocomplete_keys_agree_iff query1 limit1 query2 limit2 :
  autocomplete_key query1 limit1 = autocomplete_key query2 limit2
  <-> (str_lower query1 = str_lower query2 /\ limit1 = limit2).
Proof.
  split.
  - unfold autocomplete_key. intros E.
    apply (inj (String.app "autocomplete:")) in E.
    change (":" +:+ ?s) with (String ":" s) in E.
    apply cut_at_last in E as [Hq Hl];
      try (apply pretty_Z_lacks; now right).
    split; [exact Hq |]. now apply (inj pretty) in Hl.
  - intros [Hq ->]. unfold autocomplete_key. now rewrite Hq.
Qed.

End Keys.

(** ** Trimming and parsing, against the specification's words *)

Local Ltac bytes_in H :=
  cbv beta iota zeta
      delta [PyStr.space3 PyStr.space2 PyStr.ascii_space lead_byte] in H;
  repeat first [ rewrite orb_true_iff in H | rewrite andb_true_iff in H
               | rewrite N.eqb_eq in H | rewrite N.leb_le in H ].

Local Ltac bytes :=
  repeat match goal with
         | |- _ /\ _ => split
         | |- forall _, _ => intros ?
         end;
  match goal with
  | H : _ = true |- _ = false =>
      bytes_in H; apply not_true_iff_false; intros G; bytes_in G; lia
  | H : _ = true |- _ = true =>
      bytes_in H;
      cbv beta iota zeta
          delta [PyStr.space3 PyStr.space2 PyStr.ascii_space lead_byte];
      repeat first [ rewrite orb_true_iff | rewrite andb_true_iff
                   | rewrite N.eqb_eq | rewrite N.leb_le ];
      lia
  end.

Lemma ascii_space_bytes a :
  PyStr.ascii_space a = true -> lead_byte a = true.
Proof. intros H. bytes. Qed.

Lemma space2_bytes a b :
  PyStr.space2 a b = true ->
  PyStr.ascii_space a = false /\ PyStr.ascii_space b = false
  /\ lead_byte a = true /\ lead_byte b = false.
Proof. intros H. bytes. Qed.

Lemma space3_bytes a b c :
  PyStr.space3 a b c = true ->
  PyStr.ascii_space a = false /\ PyStr.ascii_space c = false
  /\ (forall b', PyStr.space2 a b' = false) /\ PyStr.space2 b c = false
  /\ lead_byte a = true /\ lead_byte b = false /\ lead_byte c = false.
Proof. intros H. bytes. Qed.

(** A byte that starts a whitespace character does not continue one. *)
Lemma lead_byte_bytes b :
  lead_byte b = true ->
  (forall a, PyStr.space2 a b = false)
  /\ (forall a c, PyStr.space3 a b c = false)
  /\ (forall a a', PyStr.space3 a a' b = false).
Proof. intros H. bytes. Qed.

Lemma whitespace_app s t : whitespace s -> whitespace t -> whitespace (s +:+ t).
Proof.
  induction 1 as [| ch s Hch Hs IH]; intros Ht; [now rewrite app_nil_l |].
  rewrite string_app_assoc. constructor; auto.
Qed.

Lemma whitespace_char ch : space_char ch = true -> whitespace ch.
Proof.
  intros Hch. rewrite <- (string_app_nil_r ch).
  constructor; [exact Hch | constructor].
Qed.

Lemma space_char_head ch :
  space_char ch = true -> exists a t, ch = String a t /\ lead_byte a = true.
Proof.
  destruct ch as [| a [| b [| c [|]]]]; simpl; intros H; try discriminate;
    exists a; eexists; (split; [reflexivity |]).
  - now apply ascii_space_bytes.
  - now apply space2_bytes in H.
  - now apply space3_bytes in H.
Qed.

Lemma whitespace_head b rest :
  whitespace (String b rest) -> lead_byte b = true.
Proof.
  intros H. inversion H as [| ch s Hch Hs E].
  destruct (space_char_head ch Hch) as (a & t & -> & Ha).
  rewrite app_cons in E. now injection E as -> _.
Qed.

(** One round of [drop_space]: nothing to drop, or one whitespace
    character is dropped and the rest is dealt with. *)
Lemma drop_space_char back s :
  (leading_space back s = false /\ PyStr.drop_space back s = s)
  \/ (exists p r,
        space_char (if back then String.rev p else p) = true
        /\ p <> "" /\ s = p +:+ r
        /\ PyStr.drop_space back s = PyStr.drop_space back r).
Proof.
  destruct s as [| a r1]; [left; split; reflexivity |].
  destruct (PyStr.ascii_space a) eqn:Ha.
  { right. exists (String a ""), r1.
    split; [now destruct back |]. split; [discriminate |].
    split; [reflexivity |]. cbn [PyStr.drop_space]. now rewrite Ha. }
  destruct r1 as [| b r2].
  { left. cbn [leading_space PyStr.drop_space]. rewrite Ha. split; reflexivity. }
  destruct (if back then PyStr.space2 b a else PyStr.space2 a b) eqn:H2.
  { right. exists (String a (String b "")), r2.
    split; [now destruct back |]. split; [discriminate |].
    split; [reflexivity |]. cbn [PyStr.drop_space]. now rewrite Ha, H2. }
  destruct r2 as [| c r3].
  { left. cbn [leading_space PyStr.drop_space]. rewrite Ha, H2. split; reflexivity. }
  destruct (if back then PyStr.space3 c b a else PyStr.space3 a b c) eqn:H3.
  - right. exists (String a (String b (String c ""))), r3.
    split; [now destruct back |]. split; [discriminate |].
    split; [reflexivity |]. cbn [PyStr.drop_space]. now rewrite Ha, H2, H3.
  - left. cbn [leading_space PyStr.drop_space]. rewrite Ha, H2, H3.
    split; reflexivity.
Qed.

(** What [drop_space] drops is a run of whitespace characters, and there
    is none at the front of what it returns. *)
Lemma drop_space_run back n : forall s,
  String.length s <= n ->
  exists p,
    s = p +:+ PyStr.drop_space back s
    /\ whitespace (if back then String.rev p else p)
    /\ leading_space back (PyStr.drop_space back s) = false.
Proof.
  induction n as [| n IH]; intros s Hlen;
    destruct (drop_space_char back s) as [(Hl & E) | (p & r & Hch & Hp & Hs & E)].
  - rewrite E. exists "". split; [reflexivity |].
    split; [destruct back; constructor | exact Hl].
  - exfalso. subst s. rewrite string_length_app in Hlen.
    destruct p; [congruence | simpl in Hlen; lia].
  - rewrite E. exists "". split; [reflexivity |].
    split; [destruct back; constructor | exact Hl].
  - assert (Hr : String.length r <= n).
    { subst s. rewrite string_length_app in Hlen.
      destruct p; [congruence | simpl in Hlen; lia]. }
    destruct (IH r Hr) as (p' & Hp' & Hw & Hl). rewrite E.
    exists (p +:+ p'). split; [now rewrite string_app_assoc, <- Hp' |].
    split; [| exact Hl]. destruct back.
    + rewrite rev_app_distr. apply whitespace_app; [exact Hw |].
      now apply whitespace_char.
    + now constructor.
Qed.

(** A whitespace character at the front is something to drop. *)
Lemma leading_space_char back ch r :
  space_char ch = true ->
  leading_space back ((if back then String.rev ch else ch) +:+ r) = true.
Proof.
  destruct ch as [| a [| b [| c [|]]]]; simpl space_char; intros H;
    try discriminate; destruct back;
    cbv [String.rev String.rev_app];
    rewrite !app_cons, app_nil_l; cbn [leading_space]; rewrite H;
    rewrite ?orb_true_r; reflexivity.
Qed.

(** What is to drop at the front starts with a whitespace character. *)
Lemma leading_space_elim back s :
  leading_space back s = true ->
  exists ch r,
    space_char ch = true /\ s = (if back then String.rev ch else ch) +:+ r.
Proof.
  destruct s as [| a r1]; [discriminate |]. cbn [leading_space].
  destruct (PyStr.ascii_space a) eqn:Ha.
  { intros _. exists (String a ""), r1. split; [exact Ha | now destruct back]. }
  destruct r1 as [| b r2]; [discriminate |].
  destruct (if back then PyStr.space2 b a else PyStr.space2 a b) eqn:H2.
  { intros _. destruct back.
    - exists (String b (String a "")), r2. split; [exact H2 | reflexivity].
    - exists (String a (String b "")), r2. split; [exact H2 | reflexivity]. }
  destruct r2 as [| c r3]; [discriminate |]. simpl. intros H3.
  destruct back.
  - exists (String c (String b (String a ""))), r3. split; [exact H3 | reflexivity].
  - exists (String a (String b (String c ""))), r3. split; [exact H3 | reflexivity].
Qed.

(** [strip] trims: it takes a run of whitespace off each end and leaves
    none there. *)
Lemma strip_trimmed s : trimmed_of s (PyStr.strip s).
Proof.
  unfold PyStr.strip, PyStr.rstrip, PyStr.lstrip.
  destruct (drop_space_run false (String.length s) s (le_n _))
    as (pre & Hs & Hpre & Hu).
  set (u := PyStr.drop_space false s) in *.
  destruct (drop_space_run true (String.length (String.rev u)) (String.rev u)
              (le_n _)) as (p & Hp & Hpost & Hx).
  set (x := PyStr.drop_space true (String.rev u)) in *.
  assert (Hsplit : u = String.rev x +:+ String.rev p).
  { rewrite <- rev_app_distr, <- Hp. now rewrite rev_involutive. }
  exists pre, (String.rev p). split; [now rewrite <- Hsplit |].
  split; [exact Hpre |]. split; [exact Hpost |]. split.
  - intros ch r Hch E.
    pose proof (leading_space_char false ch (r +:+ String.rev p) Hch) as Hl.
    cbv iota in Hl. rewrite <- string_app_assoc, <- E, <- Hsplit in Hl. congruence.
  - intros ch r Hch E.
    pose proof (leading_space_char true ch (String.rev r) Hch) as Hl.
    cbv iota in Hl. rewrite <- rev_app_distr, <- E, rev_involutive in Hl. congruence.
Qed.

(** Dropping goes through a whitespace character, from either end. *)
Lemma drop_space_through back ch y :
  space_char ch = true ->
  PyStr.drop_space back ((if back then String.rev ch else ch) +:+ y)
  = PyStr.drop_space back y.
Proof.
  destruct ch as [| a [| b [| c [|]]]]; simpl space_char; intros H;
    try discriminate; destruct back;
    cbv [String.rev String.rev_app];
    rewrite !app_cons, app_nil_l; cbn [PyStr.drop_space].
  - now rewrite H.
  - now rewrite H.
  - destruct (space2_bytes a b H) as (_ & -> & _). now rewrite H.
  - destruct (space2_bytes a b H) as (-> & _). now rewrite H.
  - destruct (space3_bytes a b c H) as (_ & -> & _ & -> & _). now rewrite H.
  - destruct (space3_bytes a b c H) as (-> & _ & -> & _). now rewrite H.
Qed.

Lemma drop_space_front pre y :
  whitespace pre -> PyStr.drop_space false (pre +:+ y) = PyStr.drop_space false y.
Proof.
  induction 1 as [| ch s Hch Hs IH]; [now rewrite app_nil_l |].
  rewrite string_app_assoc.
  now rewrite (drop_space_through false ch (s +:+ y) Hch).
Qed.

Lemma drop_space_back post : whitespace post -> forall y,
  PyStr.drop_space true (String.rev post +:+ y) = PyStr.drop_space true y.
Proof.
  induction 1 as [| ch s Hch Hs IH]; intros y.
  - change (String.rev "") with "". now rewrite app_nil_l.
  - rewrite rev_app_distr, string_app_assoc, IH.
    exact (drop_space_through true ch y Hch).
Qed.

(** With no whitespace at its front, a text followed by a run of
    whitespace has nothing to drop at the front. *)
Lemma no_leading_space v post :
  v <> "" ->
  (forall ch r, space_char ch = true -> v <> ch +:+ r) ->
  whitespace post ->
  leading_space false (v +:+ post) = false.
Proof.
  intros Hne Hfront Hpost.
  destruct (leading_space false (v +:+ post)) eqn:Hl; [| reflexivity].
  exfalso.
  assert (Ha : forall a r, v = String a r -> PyStr.ascii_space a = false).
  { intros a r -> . destruct (PyStr.ascii_space a) eqn:Ha; [| reflexivity].
    now elim (Hfront (String a "") r Ha). }
  assert (H2 : forall a b r, v = String a (String b r) -> PyStr.space2 a b = false).
  { intros a b r ->. destruct (PyStr.space2 a b) eqn:H2; [| reflexivity].
    now elim (Hfront (String a (String b "")) r H2). }
  assert (H3 : forall a b c r, v = String a (String b (String c r)) ->
                 PyStr.space3 a b c = false).
  { intros a b c r ->. destruct (PyStr.space3 a b c) eqn:H3; [| reflexivity].
    now elim (Hfront (String a (String b (String c ""))) r H3). }
  destruct v as [| a [| b [| c v']]]; [congruence | | |].
  - rewrite app_cons, app_nil_l in Hl. cbn [leading_space] in Hl.
    rewrite (Ha a "" eq_refl) in Hl.
    destruct post as [| b r2]; [discriminate |].
    destruct (lead_byte_bytes b (whitespace_head b r2 Hpost)) as (Hb2 & Hb3 & _).
    rewrite Hb2 in Hl. destruct r2 as [| c r3]; [discriminate |].
    rewrite Hb3 in Hl. discriminate.
  - rewrite !app_cons, app_nil_l in Hl. cbn [leading_space] in Hl.
    rewrite (Ha a _ eq_refl), (H2 a b "" eq_refl) in Hl.
    destruct post as [| c r3]; [discriminate |].
    destruct (lead_byte_bytes c (whitespace_head c r3 Hpost)) as (_ & _ & Hc3).
    rewrite Hc3 in Hl. discriminate.
  - rewrite !app_cons in Hl. cbn [leading_space] in Hl.
    rewrite (Ha a _ eq_refl), (H2 a b _ eq_refl), (H3 a b c _ eq_refl) in Hl.
    discriminate.
Qed.

(** Trimming has one result, and [strip] computes it. *)
Lemma trimmed_strip piece v : trimmed_of piece v -> PyStr.strip piece = v.
Proof.
  intros (pre & post & -> & Hpre & Hpost & Hfront & Hback).
  unfold PyStr.strip, PyStr.rstrip, PyStr.lstrip.
  rewrite (drop_space_front pre _ Hpre).
  destruct (string_dec v "") as [-> | Hne].
  - rewrite app_nil_l, <- (string_app_nil_r post).
    rewrite (drop_space_front post "" Hpost). reflexivity.
  - rewrite (drop_space_fixed false _ (no_leading_space v post Hne Hfront Hpost)).
    rewrite rev_app_distr, (drop_space_back post Hpost).
    rewrite drop_space_fixed; [apply rev_involutive |].
    destruct (leading_space true (String.rev v)) eqn:Hl; [| reflexivity].
    exfalso. apply leading_space_elim in Hl as (ch & r & Hch & E).
    apply (Hback ch (String.rev r) Hch).
    rewrite <- (rev_involutive v), E, rev_app_distr. now rewrite rev_involutive.
Qed.

Lemma truthy_not_empty l :
  List.filter PyStr.truthy l = List.filter (fun v => negb (String.eqb v "")) l.
Proof. apply List.filter_ext. now intros []. Qed.

(** The specification's words describe one list, the one the source
    computes. *)
Lemma parsed_from_iff text vars :
  parsed_from text vars
  <-> vars = List.filter PyStr.truthy (List.map PyStr.strip (PyStr.split "," text)).
Proof.
  split.
  - intros (pieces & trimmed & Hne & Hjoin & Hlack & Htrim & ->).
    rewrite <- Hjoin, (split_join "," pieces Hne Hlack), truthy_not_empty.
    f_equal. clear Hne Hjoin Hlack.
    induction Htrim as [| p v ps vs Hpv _ IH]; [reflexivity |].
    simpl. now rewrite (trimmed_strip p v Hpv), IH.
  - intros ->. exists (PyStr.split "," text), (List.map PyStr.strip (PyStr.split "," text)).
    split; [apply split_not_nil |]. split; [apply join_split |].
    split; [apply split_pieces_lack |]. split; [| apply truthy_not_empty].
    induction (PyStr.split "," text) as [| p ps IH]; constructor;
      [apply strip_trimmed | exact IH].
Qed.

Section RequestedVariables.

Context {runtime : PyRuntime} {oracle : Oracle}.

(** The upstream forecast calls of a request carry the forecast
    parameters of the requested variables. *)
Lemma get_weather_forecast_events q w :
  exists t,
    trace (snd (get_weather q w)) = trace w ++ t
    /\ forall url params,
         In (HttpGet url params) t -> url = FORECAST_URL ->
         exists loc, params = forecast_params loc (hourly_list (hourly_vars q)).
Proof.
  rewrite get_weather_unfold.
  destruct (_ && _).
  { exists []. split; [now rewrite app_nil_r | intros ? ? []]. }
  pose proof (resolve_location_frame q w) as (_ & Fa & _).
  destruct (resolve_location_handler_frame q w) as (_ & _ & _ & (t1 & T1)).
  assert (Hquiet : forall url params,
            In (HttpGet url params) t1 -> url <> FORECAST_URL).
  { intros url params Hin ->.
    rewrite T1 in Fa. unfold forecast_calls in Fa.
    rewrite List.filter_app, length_app in Fa.
    assert (Hin' : In (HttpGet FORECAST_URL params)
                     (List.filter is_forecast_call t1))
      by (apply List.filter_In; split; [exact Hin | reflexivity]).
    destruct (List.filter is_forecast_call t1); [destruct Hin' | simpl in Fa; lia]. }
  destruct (resolve_location q w) as [[loc | e] wa]; cbn [snd] in *.
  - rewrite weather_at_world.
    destruct (load_forecast_trace loc (hourly_list (hourly_vars q)) wa)
      as [T | [T | T]]; rewrite T, T1, <- app_assoc;
      eexists; (split; [reflexivity |]);
      intros url params Hin Hurl; apply List.in_app_or in Hin as [Hin | Hin];
      try (now elim (Hquiet url params Hin));
      simpl in Hin; exists loc;
      repeat (destruct Hin as [Hin | Hin]; [try discriminate; congruence |]);
      destruct Hin.
  - exists t1. split; [exact T1 |].
    intros url params Hin Hurl. now elim (Hquiet url params Hin).
Qed.

(** C8. The requested variables are what the specification's words
    describe, and nothing else is: the text (empty when [hourly_vars] is
    missing) is cut at its commas, each piece loses the whitespace
    around it and keeps the rest, and the pieces that became empty are
    dropped, in the order of the text. Every upstream forecast call of a
    request carries the parameters of this list: with no variable left
    there is no [hourly] key among them, only the five others, and
    otherwise [hourly] is the list joined by commas. *)
Theorem requested_variables_parsed :
  (forall hv vars, parsed_from (default "" hv) vars <-> vars = hourly_list hv)
  /\ hourly_list (Some spaced_request)
     = ["temperature_2m"; "windspeed_10m"; "wind gusts"]
  /\ (forall q w,
        exists t,
          trace (snd (get_weather q w)) = trace w ++ t
          /\ forall url params,
               In (HttpGet url params) t -> url = FORECAST_URL ->
               Py.lookup params "hourly"
               = match hourly_list (hourly_vars q) with
                 | [] => None
                 | v :: hl => Some (JStr (PyStr.join "," (v :: hl)))
                 end
               /\ (hourly_list (hourly_vars q) = [] ->
                   List.map fst params
                   = ["latitude"; "longitude"; "current_weather";
                      "timezone"; "forecast_days"])).
Proof.
  split; [| split].
  - intros hv vars. rewrite parsed_from_iff.
    unfold hourly_list. rewrite map_filter_comm.
    now destruct hv as [[|] |].
  - vm_compute. reflexivity.
  - intros q w. destruct (get_weather_forecast_events q w) as (t & T & Hcalls).
    exists t. split; [exact T |]. intros url params Hin Hurl.
    destruct (Hcalls url params Hin Hurl) as (loc & ->).
    destruct (hourly_list (hourly_vars q)); split; try reflexivity; discriminate.
Qed.

End RequestedVariables.

(** ** What a response is made of *)

Section Responses.

Context {runtime : PyRuntime} {oracle : Oracle}.

(** The document [load_forecast] returns is, afterwards, the entry under
    the forecast key: it was read from there or has just been written. *)
Lemma load_forecast_stored loc hl w f :
  fst (load_forecast loc hl w) = Ret f ->
  exists entry,
    _cache (snd (load_forecast loc hl w)) !! forecast_key loc hl = Some entry
    /\ value entry = f.
Proof.
  unfold load_forecast, bind, cache_get, fetch_json, cache_set, ret.
  destruct (_cache w !! forecast_key loc hl) as [entry |] eqn:E; simpl.
  - destruct (expires_at entry <? _now (tick w))%Z; simpl.
    + destruct (http_get _ _ _); simpl; [| discriminate].
      intros [= <-]. eexists. split; [apply lookup_insert_eq | reflexivity].
    + destruct (Py.is_none (value entry)); simpl.
      * destruct (http_get _ _ _); simpl; [| discriminate].
        intros [= <-]. eexists. split; [apply lookup_insert_eq | reflexivity].
      * intros [= <-]. exists entry. split; [exact E | reflexivity].
  - destruct (http_get _ _ _); simpl; [| discriminate].
    intros [= <-]. eexists. split; [apply lookup_insert_eq | reflexivity].
Qed.

Lemma weather_at_returns loc hl w resp :
  fst (weather_at loc hl w) = Ret resp ->
  exists f,
    fst (load_forecast loc hl w) = Ret f
    /\ location resp = loc
    /\ Py.get f "current_weather" JNull = Ret (current resp)
    /\ current resp <> JNull
    /\ Py.get f "hourly" (JObj []) = Ret (hourly resp)
    /\ annotate (current resp) = Ret (weather_desc resp, weather_icon resp).
Proof.
  unfold weather_at, bind, lift, raise, ret.
  destruct (load_forecast loc hl w) as [[f | e] w']; simpl; [| discriminate].
  destruct (Py.get f "current_weather" JNull) as [cur | e] eqn:Hget;
    simpl; [| discriminate].
  destruct (Py.get f "hourly" (JObj [])) as [h | e] eqn:Hhourly;
    simpl; [| discriminate].
  destruct (Py.is_none cur) eqn:Hcur; simpl; [discriminate |].
  destruct (annotate cur) as [[d i] | e] eqn:Hann; simpl; [| discriminate].
  intros [= <-]. exists f. simpl.
  split; [reflexivity |]. split; [reflexivity |]. split; [exact Hget |].
  split; [intros ->; discriminate |]. split; [exact Hhourly | exact Hann].
Qed.

(** A response can be read off the cache. When [get_weather] returns a
    response, the cache then holds an entry under the forecast key of the
    response's own location and of the requested variables, and the
    response is made of that entry: [current] is its [current_weather],
    which is not [None], [hourly] is its [hourly] or [{}] when it has
    none, the description and the icon are those of [current], and the
    location is the one the request resolved to. *)
Theorem response_is_made_of_the_cached_forecast q w resp :
  fst (get_weather q w) = Ret resp ->
  exists entry,
    _cache (snd (get_weather q w))
      !! forecast_key (location resp) (hourly_list (hourly_vars q)) = Some entry
    /\ Py.get (value entry) "current_weather" JNull = Ret (current resp)
    /\ current resp <> JNull
    /\ Py.get (value entry) "hourly" (JObj []) = Ret (hourly resp)
    /\ annotate (current resp) = Ret (weather_desc resp, weather_icon resp)
    /\ fst (resolve_location q w) = Ret (location resp).
Proof.
  rewrite get_weather_unfold.
  destruct (_ && _); [discriminate |].
  destruct (resolve_location q w) as [[loc | e] w']; [| discriminate].
  intros Hret. rewrite weather_at_world.
  apply weather_at_returns in Hret as (f & Hf & -> & Hcur & Hnone & Hhourly & Hann).
  apply load_forecast_stored in Hf as (entry & Hentry & <-).
  exists entry. split; [exact Hentry |]. split; [exact Hcur |].
  split; [exact Hnone |]. split; [exact Hhourly |]. split; [exact Hann | reflexivity].
Qed.

End Responses.

(** ** Geocoding calls *)

Section GeocodingCalls.

Context {runtime : PyRuntime} {oracle : Oracle}.

Lemma adds_bind {A B} a b (m : M A) (k : A -> M B) :
  keeps (adds_geocode_calls a) m ->
  (forall x, keeps (adds_geocode_calls b) (k x)) ->
  keeps (adds_geocode_calls (a + b)) (bind m k).
Proof.
  intros Hm Hk w. unfold bind. specialize (Hm w).
  destruct (m w) as [[x | e] w']; cbn [snd] in *.
  - specialize (Hk x w'). unfold adds_geocode_calls in *. lia.
  - unfold adds_geocode_calls in *. lia.
Qed.

Lemma adds_weaken {A} a b (m : M A) :
  a <= b -> keeps (adds_geocode_calls a) m -> keeps (adds_geocode_calls b) m.
Proof. intros Hab Hm w. specialize (Hm w). unfold adds_geocode_calls in *. lia. Qed.

Lemma adds_lift {A} (o : outcome A) : keeps (adds_geocode_calls 0) (lift o).
Proof. intros w. unfold adds_geocode_calls. simpl. lia. Qed.

Lemma adds_cache_get k : keeps (adds_geocode_calls 0) (cache_get k).
Proof.
  intros w. destruct (cache_get_returns k w) as (v & m & -> & _).
  unfold adds_geocode_calls. cbn [snd]. rewrite geocode_calls_step. simpl. lia.
Qed.

Lemma adds_cache_set k v ttl : keeps (adds_geocode_calls 0) (cache_set k v ttl).
Proof.
  intros w. unfold adds_geocode_calls, cache_set. cbn [snd].
  rewrite geocode_calls_step. simpl. lia.
Qed.

Lemma adds_fetch_json url params :
  keeps (adds_geocode_calls 1) (fetch_json url params).
Proof.
  intros w. unfold adds_geocode_calls, fetch_json. cbn [snd].
  rewrite geocode_calls_step. destruct (is_geocode_call _); lia.
Qed.

Local Ltac no_call_step :=
  match goal with
  | |- keeps _ (bind _ _) => apply (adds_bind 0 0); [| intros ?]
  | |- keeps _ (ret _) => apply adds_lift
  | |- keeps _ (raise _) => apply adds_lift
  | |- keeps _ (lift _) => apply adds_lift
  | |- keeps _ (cache_get _) => apply adds_cache_get
  | |- keeps _ (cache_set _ _ _) => apply adds_cache_set
  | |- keeps _ (if ?b then _ else _) => destruct b
  end.

Lemma resolve_location_geocode_calls q :
  keeps (adds_geocode_calls 1) (resolve_location q).
Proof.
  unfold resolve_location.
  destruct (lat q), (lon q);
    [apply (adds_weaken 0); [lia | apply adds_lift] | | |];
    (apply (adds_bind 0 1); [apply adds_lift | intros c]);
    (apply (adds_bind 0 1); [apply adds_cache_get | intros cached]);
    (apply (adds_bind 1 0); [| intros top; repeat no_call_step]);
    (destruct (negb (Py.is_none cached));
       [apply (adds_weaken 0); [lia | apply adds_lift] |]);
    (apply (adds_bind 1 0); [apply adds_fetch_json | intros geocode]);
    repeat no_call_step.
Qed.

Lemma weather_at_geocode_calls loc hl w :
  geocode_calls (trace (snd (weather_at loc hl w))) = geocode_calls (trace w).
Proof.
  rewrite weather_at_world.
  destruct (load_forecast_cases loc hl w) as [(v & E & _) | (m & E)].
  - rewrite E. cbn [snd]. rewrite geocode_calls_step. simpl. lia.
  - cbv zeta in E.
    destruct (http_get (S (tick w)) FORECAST_URL (forecast_params loc hl));
      rewrite E; cbn [snd]; rewrite !geocode_calls_step; simpl; lia.
Qed.

(** One request issues at most one geocoding call, whichever endpoint it
    is for; an autocomplete request issues no forecast call, and a
    weather request with both coordinates no geocoding call. *)
Theorem at_most_one_geocoding_call_per_request :
  (forall q w,
     geocode_calls (trace (snd (get_weather q w)))
     <= geocode_calls (trace w) + 1)
  /\ (forall q w,
        absent (lat q) = false -> absent (lon q) = false ->
        geocode_calls (trace (snd (get_weather q w))) = geocode_calls (trace w))
  /\ (forall query limit w,
        geocode_calls (trace (snd (autocomplete query limit w)))
        <= geocode_calls (trace w) + 1
        /\ forecast_calls (trace (snd (autocomplete query limit w)))
           = forecast_calls (trace w)).
Proof.
  split; [| split].
  - intros q w. rewrite get_weather_unfold.
    destruct (_ && _); [simpl; lia |].
    pose proof (resolve_location_geocode_calls q w) as Hres.
    unfold adds_geocode_calls in Hres.
    destruct (resolve_location q w) as [[loc | e] w']; cbn [snd] in *; [| exact Hres].
    rewrite weather_at_geocode_calls. exact Hres.
  - intros q w Hlat Hlon. rewrite get_weather_unfold.
    destruct (_ && _); [reflexivity |].
    unfold resolve_location.
    destruct (lat q) as [la |]; [| discriminate].
    destruct (lon q) as [lo |]; [| discriminate].
    unfold ret. apply weather_at_geocode_calls.
  - intros query limit w.
    destruct (autocomplete_cases query limit w)
      as [(entry & _ & _ & _ & E) | (m & _ & G)].
    + rewrite E. cbn [snd].
      rewrite geocode_calls_step, forecast_calls_step. simpl. lia.
    + rewrite (autocomplete_miss _ _ _ _ G).
      destruct (http_get _ _ _) as [geocode |];
        [destruct (simplify_geocode geocode) |];
        cbn [snd]; rewrite !geocode_calls_step, !forecast_calls_step; simpl; lia.
Qed.

End GeocodingCalls.

(** ** The properties at closed requests *)

(** The completions of "Atl" on an empty cache, with one candidate
    upstream. *)
Lemma autocomplete_simplifies_witness :
  exists simplified,
    fst (@autocomplete ascii_runtime (steady (candidates [atlantis]) overcast)
           "Atl" DEFAULT_LIMIT empty_world) = Ret (JList simplified)
    /\ length simplified = 1
    /\ simplified !! 0 = Some atlantis_simplified.
Proof.
  destruct (@autocomplete_simplifies ascii_runtime
              (steady (candidates [atlantis]) overcast)
              "Atl" DEFAULT_LIMIT empty_world (candidates [atlantis])
              [[("name", JStr "Atlantis"); ("latitude", JFloat new_york_lat);
                ("longitude", JFloat new_york_lon)]])
    as (simplified & Hret & Hlen & Hrows & _).
  - reflexivity.
  - reflexivity.
  - reflexivity.
  - exists simplified. split; [exact Hret |]. split; [exact Hlen |].
    exact (Hrows 0 _ eq_refl).
Defined.

(** The completions of "Atl" are in the cache after the request. *)
Lemma autocomplete_result_witness :
  exists entry,
    _cache (snd (@autocomplete ascii_runtime (steady (candidates [atlantis]) overcast)
                   "Atl" DEFAULT_LIMIT empty_world))
      !! @autocomplete_key ascii_runtime "Atl" DEFAULT_LIMIT = Some entry
    /\ value entry = JList [atlantis_simplified].
Proof.
  destruct (@autocomplete_result_is_cached ascii_runtime
              (steady (candidates [atlantis]) overcast)
              "Atl" DEFAULT_LIMIT empty_world (JList [atlantis_simplified]))
    as (entry & Hentry & Hvalue & _).
  - vm_compute. reflexivity.
  - exists entry. split; [exact Hentry | exact Hvalue].
Defined.

(** The completions of "Atl" with the geocoding service out of reach. *)
Lemma autocomplete_failure_witness :
  (HTTPError = HTTPError \/ HTTPError = AttributeError \/ HTTPError = TypeError)
  /\ trace (snd (@autocomplete ascii_runtime unreachable "Atl" DEFAULT_LIMIT
                   empty_world))
     = trace empty_world
       ++ [CacheGet (@autocomplete_key ascii_runtime "Atl" DEFAULT_LIMIT);
           HttpGet GEOCODE_URL (autocomplete_params "Atl" DEFAULT_LIMIT)]
  /\ (forall k entry,
        _cache (snd (@autocomplete ascii_runtime unreachable "Atl" DEFAULT_LIMIT
                       empty_world)) !! k = Some entry ->
        _cache empty_world !! k = Some entry).
Proof.
  apply (@autocomplete_failure_writes_nothing ascii_runtime unreachable
           "Atl" DEFAULT_LIMIT empty_world HTTPError).
  vm_compute. reflexivity.
Defined.

(** A cache that holds the completions of "Atl": the entry is a list, and
    so is what the next request returns. *)
Lemma autocomplete_list_witness :
  autocomplete_entries_are_lists atlantis_completed
  /\ is_list (JList [atlantis_simplified]) = true.
Proof.
  assert (Hinv : autocomplete_entries_are_lists atlantis_completed).
  { intros k e _ Hk. unfold atlantis_completed in Hk. cbn [_cache] in Hk.
    apply lookup_singleton_Some in Hk as [_ <-]. reflexivity. }
  split; [exact Hinv |].
  apply (proj1 (@autocomplete_returns_a_list ascii_runtime
                  (steady (candidates []) overcast) atlantis_completed Hinv)
           "Atl" DEFAULT_LIMIT (JList [atlantis_simplified])).
  vm_compute. reflexivity.
Defined.

(** The 404 of a request for a city the geocoding service does not know. *)
Lemma weather_errors_witness :
  weather_error (by_city "Nonexististan")
    (HTTPException 404 "City 'Nonexististan' not found").
Proof.
  apply (@weather_errors_are_known ascii_runtime (steady (candidates []) overcast)
           (by_city "Nonexististan") empty_world).
  vm_compute. reflexivity.
Defined.

(** A request for Atlantis with the candidate in the cache. *)
Lemma cached_candidate_witness :
  @resolve_location ascii_runtime unreachable (by_city "Atlantis") atlantis_cached
  = (Ret {| name := JStr "Atlantis"; latitude := new_york_lat;
            longitude := new_york_lon; country := JNull; admin1 := JNull |},
     step (CacheGet "geocode:atlantis") (_cache atlantis_cached) atlantis_cached).
Proof.
  apply (@cached_candidate_skips_geocoding ascii_runtime unreachable
           (by_city "Atlantis") "Atlantis" atlantis_cached
           {| value := atlantis; expires_at := 1200 |}
           [("name", JStr "Atlantis"); ("latitude", JFloat new_york_lat);
            ("longitude", JFloat new_york_lon)] new_york_lat new_york_lon).
  - reflexivity.
  - reflexivity.
  - left. reflexivity.
  - reflexivity.
  - vm_compute. discriminate.
  - reflexivity.
  - reflexivity.
  - reflexivity.
Defined.

(** The response to a request by coordinates on an empty cache, and the
    entry it leaves. *)
Lemma response_witness :
  exists resp entry,
    _cache (snd (@get_weather ascii_runtime (steady (candidates []) overcast)
                   by_coordinates empty_world))
      !! forecast_key (location resp) (hourly_list (hourly_vars by_coordinates))
    = Some entry
    /\ Py.get (value entry) "current_weather" JNull = Ret (current resp)
    /\ current resp <> JNull
    /\ Py.get (value entry) "hourly" (JObj []) = Ret (hourly resp)
    /\ @annotate ascii_runtime (current resp)
       = Ret (weather_desc resp, weather_icon resp)
    /\ fst (@resolve_location ascii_runtime (steady (candidates []) overcast)
              by_coordinates empty_world) = Ret (location resp).
Proof.
  eexists.
  eapply (@response_is_made_of_the_cached_forecast ascii_runtime
            (steady (candidates []) overcast) by_coordinates empty_world).
  vm_compute. reflexivity.
Defined.
